(** * On-save syntax checking (SyntaxCheckPlugin.py)

    A shallow embedding of [RustSyntaxCheckEvent.on_post_save] and of
    [RustSyntaxCheckThread] (its [run], [get_rustc_messages] and the
    [ProcListener] callbacks), with the Sublime host, the [messages]
    store, cargo settings, the target detector and the process runner
    as explicit collaborators. *)

From Stdlib Require Import ZArith String List Bool Lia.
From stdpp Require Import gmap strings list fin_maps.

Open Scope string_scope.
Open Scope Z_scope.

(** ** Python data *)

(** Exceptions which can unwind the thread's [run]. *)
Inductive exn : Type :=
| ProcessTerminatedError
| KeyError (key : string)
| OSError (msg : string).

(** How a block of statements completes. *)
Inductive completion : Type :=
| Normal
| Break
| Return
| Raise (e : exn).

(** [' '.join(words)]. *)
Fixpoint join (sep : string) (words : list string) : string :=
  match words with
  | [] => ""
  | [w] => w
  | w :: ws => w ++ sep ++ join sep ws
  end.

(** The status key used on the view, and its text while a check runs. *)
Definition status_key : string := "rust-check".
Definition status_running : string := "Rust syntax check running...".

Section Orchestrator.

(** Values owned by collaborators and never inspected here: an entry of
    [cargo_settings.CARGO_COMMANDS] and a decoded JSON message of cargo. *)
Context {CommandInfo JsonObj : Type}.

(** The dictionary returned by [CargoSettings.get_command]. *)
Record Cmd : Type := mkCmd {
  command : list string;
  env : list (string * string);
  msg_rel_path : string;
  rustc_version : string
}.

(** One element of [TargetDetector.determine_targets]:
    [(target_src, target_args)]. *)
Definition Target : Type := (string * list string)%type.

(** What [messages.add_rust_messages] is handed for one JSON object. *)
Record Message : Type := mkMessage {
  m_rel_path : option string;
  m_obj : JsonObj;
  m_target_src : option string
}.

(** What a [ProcListener] can be told about a process. *)
Inductive ProcEvent : Type :=
| EvBegin
| EvData (data : string)
| EvError (message : string)
| EvJson (obj : JsonObj)
| EvFinished (rc : Z)
| EvTerminated.

(** The life of one [RustProc]: whether [run] raises, the listener
    callbacks delivered while it lives, and whether [wait] raises. *)
Record ProcScript : Type := mkScript {
  spawn : option exn;
  events : list ProcEvent;
  exit : option exn
}.

(** Calls made on collaborators, in the order they are made. *)
Inductive Call : Type :=
| CPrint (line : string)
| CSetStatus (key value : string)
| CEraseStatus (key : string)
| CClearMessages
| CMessagesFinished
| CAddRustMessages (m : Message)
| CSettingsLoad
| CGetCommand (method : string) (target : option string)
| CDetermineTargets (file : option string)
| CProcRun (argv : list string) (dir : option string)
           (penv : list (string * string)) (target_src : option string)
| CProcWait
| CThreadStart.

(** ** The collaborators *)

(** Modelled from the spec: the modules [sublime], [util], [messages],
    [cargo_settings], [target_detect], [semver] and [rust_proc] are not
    part of the file; what they answer is a field here.  A process is
    given by the number of processes started before it and by the
    arguments of [RustProc.run]; [get_command] builds a fresh
    dictionary on every call. *)
Record Host : Type := mkHost {
  sublime_version : Z;
  rust_syntax_checking : bool;
  active_view_is_rust : bool;
  file_name : string;
  abspath : string -> string;
  py_repr : string -> string;
  find_cargo_manifest : string -> option string;
  rust_syntax_checking_method : string;
  rust_syntax_checking_include_tests : bool;
  CARGO_COMMANDS : string -> option CommandInfo;
  get_command : string -> CommandInfo -> option string -> option string ->
                option string -> bool -> Cmd;
  determine_targets : option string -> list Target;
  semver_match : string -> string -> bool;
  has_message_for_path : list Message -> option string -> bool;
  proc_script : nat -> list string -> option string ->
                list (string * string) -> ProcScript
}.

(** ** The state *)

(** The attributes of the thread object, the status line of the view,
    the messages recorded for the window, and the calls made so far. *)
Record State : Type := mkState {
  triggered_file_name : option string;
  cwd : option string;
  cur_msg_rel_path : option string;
  this_view_found : bool;
  current_target_src : option string;
  view_status : gmap string string;
  store : list Message;
  log : list Call
}.

Definition Stmt : Type := State -> State * completion.

Definition pass : Stmt := fun s => (s, Normal).
Definition return_ : Stmt := fun s => (s, Return).
Definition break_ : Stmt := fun s => (s, Break).
Definition raise (e : exn) : Stmt := fun s => (s, Raise e).

(** [a; b] *)
Definition seq (a b : Stmt) : Stmt := fun s =>
  match a s with
  | (s1, Normal) => b s1
  | (s1, c) => (s1, c)
  end.

(** [if c: a else: b] *)
Definition if_ (c : bool) (a b : Stmt) : Stmt := if c then a else b.

(** [try: body except ProcessTerminatedError: handler] *)
Definition try_except_terminated (body handler : Stmt) : Stmt := fun s =>
  match body s with
  | (s1, Raise ProcessTerminatedError) => handler s1
  | (s1, c) => (s1, c)
  end.

(** [try: body finally: fin] *)
Definition try_finally (body fin : Stmt) : Stmt := fun s =>
  match body s with
  | (s1, c) =>
      match fin s1 with
      | (s2, Normal) => (s2, c)
      | (s2, c2) => (s2, c2)
      end
  end.

(** [for x in xs: body x] *)
Fixpoint for_each {A : Type} (xs : list A) (body : A -> Stmt) : Stmt :=
  fun s =>
    match xs with
    | [] => (s, Normal)
    | x :: xs' =>
        match body x s with
        | (s1, Normal) => for_each xs' body s1
        | (s1, Break) => (s1, Normal)
        | (s1, c) => (s1, c)
        end
    end.

(** A call of a method: [return] ends the callee only. *)
Definition call (body : Stmt) : Stmt := fun s =>
  match body s with
  | (s1, Return) => (s1, Normal)
  | (s1, c) => (s1, c)
  end.

Notation "a ;; b" := (seq a b) (at level 100, b at level 200).


Definition emit (c : Call) (s : State) : State :=
  mkState (triggered_file_name s) (cwd s) (cur_msg_rel_path s)
          (this_view_found s) (current_target_src s) (view_status s)
          (store s) (log s ++ [c]).

Definition set_triggered_file_name (v : option string) (s : State) : State :=
  mkState v (cwd s) (cur_msg_rel_path s) (this_view_found s)
          (current_target_src s) (view_status s) (store s) (log s).

Definition set_cwd (v : option string) (s : State) : State :=
  mkState (triggered_file_name s) v (cur_msg_rel_path s) (this_view_found s)
          (current_target_src s) (view_status s) (store s) (log s).

Definition set_msg_rel_path (v : option string) (s : State) : State :=
  mkState (triggered_file_name s) (cwd s) v (this_view_found s)
          (current_target_src s) (view_status s) (store s) (log s).

Definition set_this_view_found (v : bool) (s : State) : State :=
  mkState (triggered_file_name s) (cwd s) (cur_msg_rel_path s) v
          (current_target_src s) (view_status s) (store s) (log s).

Definition set_current_target_src (v : option string) (s : State) : State :=
  mkState (triggered_file_name s) (cwd s) (cur_msg_rel_path s)
          (this_view_found s) v (view_status s) (store s) (log s).

Definition set_view_status (v : gmap string string) (s : State) : State :=
  mkState (triggered_file_name s) (cwd s) (cur_msg_rel_path s)
          (this_view_found s) (current_target_src s) v (store s) (log s).

Definition set_store (v : list Message) (s : State) : State :=
  mkState (triggered_file_name s) (cwd s) (cur_msg_rel_path s)
          (this_view_found s) (current_target_src s) (view_status s)
          v (log s).

Definition update (f : State -> State) : Stmt := fun s => (f s, Normal).

(** ** Host and aggregator operations *)

Definition print (line : string) : Stmt := update (emit (CPrint line)).

(** [view.set_status(key, value)] *)
Definition set_status (key value : string) : Stmt :=
  update (fun s => emit (CSetStatus key value)
                 (set_view_status (<[key := value]> (view_status s)) s)).

(** [view.erase_status(key)] *)
Definition erase_status (key : string) : Stmt :=
  update (fun s => emit (CEraseStatus key)
                 (set_view_status (delete key (view_status s)) s)).

(** Modelled from the spec: the module [messages] is not part of the
    file.  Its store for the window is the list of what was added since
    the last clear; [messages.clear_messages(window)] empties it. *)
Definition clear_messages : Stmt :=
  update (fun s => emit CClearMessages (set_store [] s)).

(** Modelled from the spec: [messages.messages_finished(window)] shows
    what the store holds and leaves the store as it is. *)
Definition messages_finished : Stmt := update (emit CMessagesFinished).

(** Modelled from the spec: [messages.add_rust_messages(window,
    msg_rel_path, obj, target_src, msg_cb=None)] records the object with
    the base path and the target it came from. *)
Definition add_rust_messages (m : Message) : Stmt :=
  update (fun s => emit (CAddRustMessages m) (set_store (store s ++ [m]) s)).

(** ** The program *)

Variable H : Host.

(** *** ProcListener methods *)

Definition on_begin : Stmt := pass.

Definition on_data (data : string) : Stmt := pass.

Definition on_error (message : string) : Stmt :=
  print ("Rust Error: " ++ message).

Definition on_json (obj : JsonObj) : Stmt := fun s =>
  (add_rust_messages
     (mkMessage (cur_msg_rel_path s) obj (current_target_src s)) ;;
   fun s1 =>
     if_ (has_message_for_path H (store s1) (triggered_file_name s1))
         (update (set_this_view_found true))
         pass s1) s.

Definition on_finished (rc : Z) : Stmt := pass.

Definition on_terminated : Stmt := pass.

(** The process runner telling the listener about one event. *)
Definition deliver (ev : ProcEvent) : Stmt :=
  match ev with
  | EvBegin => call on_begin
  | EvData data => call (on_data data)
  | EvError message => call (on_error message)
  | EvJson obj => call (on_json obj)
  | EvFinished rc => call (on_finished rc)
  | EvTerminated => call on_terminated
  end.

(** *** RustProc *)

Definition is_proc_run (c : Call) : bool :=
  match c with
  | CProcRun _ _ _ _ => true
  | _ => false
  end.

(** The processes launched so far. *)
Definition proc_runs (l : list Call) : list Call := List.filter is_proc_run l.

(** [p = rust_proc.RustProc()] followed by [p.run(window, argv, cwd,
    self, env=penv)]: the launch is recorded with the target the
    listener holds at that moment. *)
Definition proc_run (p : ProcScript) (argv : list string)
    (penv : list (string * string)) : Stmt := fun s =>
  (update (emit (CProcRun argv (cwd s) penv (current_target_src s))) ;;
   match spawn p with
   | Some e => raise e
   | None => pass
   end) s.

(** [p.wait()]: every callback of the process has been made when it
    returns or raises. *)
Definition proc_wait (p : ProcScript) : Stmt :=
  update (emit CProcWait) ;;
  for_each (events p) deliver ;;
  match exit p with
  | Some e => raise e
  | None => pass
  end.

Definition run_and_wait (argv : list string)
    (penv : list (string * string)) : Stmt := fun s =>
  let p := proc_script H (length (proc_runs (log s))) argv (cwd s) penv in
  (proc_run p argv penv ;; proc_wait p) s.

(** *** RustSyntaxCheckThread *)

(** The argument vector after the changes made for [method]
    (lines 145-158). *)
Definition augment (method : string) (target_args : list string)
    (cmd : Cmd) : list string :=
  if String.eqb method "no-trans" then
    (command cmd ++ ["--"; "-Zno-trans"; "-Zunstable-options"]) ++
    (if rust_syntax_checking_include_tests H &&
        negb (bool_decide ("--test" ∈ target_args) ||
              bool_decide ("--bench" ∈ target_args))
     then ["--test"] else [])
  else if String.eqb method "check" then
    command cmd ++
    (if rust_syntax_checking_include_tests H &&
        semver_match H (rustc_version cmd) ">=1.23.0"
     then ["--profile=test"] else [])
  else command cmd.

(** The body of the loop over the targets (lines 141-164). *)
Definition check_target (method : string) (command_info : CommandInfo)
    (t : Target) : Stmt := fun s =>
  let target_src := fst t in
  let target_args := snd t in
  let target := Some (join " " target_args) in
  let cmd := get_command H method command_info (cwd s) (cwd s) target true in
  (update (emit (CGetCommand method target)) ;;
   update (set_msg_rel_path (Some (msg_rel_path cmd))) ;;
   update (set_current_target_src (Some target_src)) ;;
   run_and_wait (augment method target_args cmd) (env cmd) ;;
   fun s1 => if_ (this_view_found s1) break_ pass s1) s.

(** The branch for clippy (lines 126-135). *)
Definition check_all (method : string) (command_info : CommandInfo) : Stmt :=
  fun s =>
  let cmd := get_command H method command_info (cwd s) (cwd s) None true in
  (update (emit (CGetCommand method None)) ;;
   update (set_msg_rel_path (Some (msg_rel_path cmd))) ;;
   run_and_wait (command cmd) (env cmd) ;;
   return_) s.

(** The loop of the "no-trans" and "check" methods (lines 138-164). *)
Definition check_targets (method : string) (command_info : CommandInfo)
    : Stmt := fun s =>
  let targets := determine_targets H (triggered_file_name s) in
  (update (emit (CDetermineTargets (triggered_file_name s))) ;;
   for_each targets (check_target method command_info)) s.

Definition get_rustc_messages : Stmt :=
  let method := rust_syntax_checking_method H in
  update (emit CSettingsLoad) ;;
  match CARGO_COMMANDS H method with
  | None => raise (KeyError method)
  | Some command_info =>
      if_ (String.eqb method "clippy") (check_all method command_info) pass ;;
      check_targets method command_info
  end.

(** The guarded part of [run] (lines 105-113). *)
Definition run_checked : Stmt :=
  try_finally
    (clear_messages ;;
     try_except_terminated (call get_rustc_messages) return_ ;;
     messages_finished)
    (erase_status status_key).

Definition run : Stmt :=
  let name := abspath H (file_name H) in
  update (set_triggered_file_name (Some name)) ;;
  update (set_cwd (find_cargo_manifest H name)) ;;
  (fun s =>
     if_ (bool_decide (cwd s = None))
         (print "Rust Enhanced skipping on-save syntax check." ;;
          print ("Failed to find Cargo.toml from " ++ py_repr H name) ;;
          print "A Cargo.toml manifest is required." ;;
          return_)
         pass s) ;;
  set_status status_key status_running ;;
  update (set_this_view_found false) ;;
  run_checked.

(** The state in which [run] calls [get_rustc_messages]: the statements
    of lines 94-106 with the early [return] left out. *)
Definition entered (s : State) : State :=
  let name := abspath H (file_name H) in
  fst ((update (set_triggered_file_name (Some name)) ;;
        update (set_cwd (find_cargo_manifest H name)) ;;
        set_status status_key status_running ;;
        update (set_this_view_found false) ;;
        clear_messages) s).

(** The outcome of [run] once [get_rustc_messages] has completed with
    [c] in state [s2] (lines 109-113). *)
Definition leave (s2 : State) (c : completion) : State * completion :=
  match c with
  | Normal => (fst (erase_status status_key (fst (messages_finished s2))),
               Normal)
  | Raise ProcessTerminatedError => (fst (erase_status status_key s2), Return)
  | c => (fst (erase_status status_key s2), c)
  end.

(** *** RustSyntaxCheckEvent *)

Definition on_post_save : Stmt :=
  if_ (sublime_version H <? 3118) return_ pass ;;
  let enabled := rust_syntax_checking H in
  if_ (enabled && active_view_is_rust H)
      (update (emit CThreadStart))
      (if_ (negb enabled) clear_messages pass).

End Orchestrator.

(** ** Concrete hosts

    A small project with two targets; a JSON message is written as its
    text, and the message ["hit"] is the one whose span lies in the file
    that was saved. *)
Module Demo.

Definition cmd_of (method : string) (ci : string) (dir cmd_dir : option string)
    (target : option string) (force_json : bool) : @Cmd :=
  mkCmd (["cargo"; ci; "--message-format=json"] ++
         match target with
         | Some t => [t]
         | None => []
         end)
        [] "/proj" "1.30.0".

Definition commands (method : string) : option string :=
  if String.eqb method "check" then Some "check"
  else if String.eqb method "no-trans" then Some "rustc"
  else if String.eqb method "clippy" then Some "clippy"
  else None.

Definition is_hit (m : @Message string) : bool := String.eqb (m_obj m) "hit".

Definition host (version : Z) (enabled : bool) (manifest : option string)
    (method : string) (tests : bool)
    (scripts : nat -> @ProcScript string) : @Host string string :=
  mkHost version enabled true "src/util.rs"
         (fun p => "/proj/" ++ p) (fun p => "'" ++ p ++ "'")
         (fun _ => manifest) method tests commands cmd_of
         (fun _ => [("src/main.rs", ["--bin"; "app"]);
                    ("src/lib.rs", ["--lib"])])
         (fun v c => String.eqb v "1.30.0")
         (fun st _ => existsb is_hit st)
         (fun n _ _ _ => scripts n).

Definition ok (evs : list (@ProcEvent string)) : @ProcScript string :=
  mkScript None (evs ++ [EvFinished 0]) None.

Definition killed (evs : list (@ProcEvent string)) : @ProcScript string :=
  mkScript None (evs ++ [EvTerminated]) (Some ProcessTerminatedError).

(** Neither target reports anything for the saved file. *)
Definition scripts_quiet (n : nat) : @ProcScript string :=
  ok [EvBegin; EvJson "other"].

(** The first target reports a message for the saved file. *)
Definition scripts_hit (n : nat) : @ProcScript string :=
  match n with
  | O => ok [EvBegin; EvJson "other"; EvJson "hit"]
  | _ => ok [EvJson "hit"]
  end.

(** The first target completes, the second is terminated. *)
Definition scripts_killed (n : nat) : @ProcScript string :=
  match n with
  | O => ok [EvJson "other"]
  | _ => killed [EvJson "late"]
  end.

(** The process cannot be started. *)
Definition scripts_broken (n : nat) : @ProcScript string :=
  mkScript (Some (OSError "No such file or directory")) [] None.

(** A view with nothing recorded and no status shown. *)
Definition idle : @State string :=
  mkState None None None false None ∅ [] [].

(** A view on which another check already shows its status, with one
    message recorded for the window. *)
Definition busy : @State string :=
  mkState None None None false None {[status_key := status_running]}
          [mkMessage (Some "/proj") "old" (Some "src/lib.rs")] [].

End Demo.

(** ** More hosts *)
Module Corner.

(** The host [h], for a file which belongs to no target. *)
Definition without_targets (h : @Host string string) : @Host string string :=
  mkHost (sublime_version h) (rust_syntax_checking h) (active_view_is_rust h)
         (file_name h) (abspath h) (py_repr h) (find_cargo_manifest h)
         (rust_syntax_checking_method h)
         (rust_syntax_checking_include_tests h) (CARGO_COMMANDS h)
         (get_command h) (fun _ => []) (semver_match h)
         (has_message_for_path h) (proc_script h).

(** The host [h], for a view which is not a Rust view. *)
Definition not_rust (h : @Host string string) : @Host string string :=
  mkHost (sublime_version h) (rust_syntax_checking h) false
         (file_name h) (abspath h) (py_repr h) (find_cargo_manifest h)
         (rust_syntax_checking_method h)
         (rust_syntax_checking_include_tests h) (CARGO_COMMANDS h)
         (get_command h) (determine_targets h) (semver_match h)
         (has_message_for_path h) (proc_script h).

(** The compiler writes two lines to its error stream and one message
    about another file. *)
Definition scripts_noisy (n : nat) : @ProcScript string :=
  Demo.ok [EvError "warning: unused manifest key"; EvData "Compiling";
           EvJson "other"; EvError "error: could not compile"].

End Corner.

(** ** Reading the log *)

Section Log.

Context {JsonObj : Type}.

#[local] Abbreviation State := (@State JsonObj).
#[local] Abbreviation Stmt := (@Stmt JsonObj).
#[local] Abbreviation Call := (@Call JsonObj).
#[local] Abbreviation Message := (@Message JsonObj).

(** The calls made between two states of one thread. *)
Definition calls_since (s s' : State) : list Call :=
  drop (length (log s)) (log s').

(** The messages handed to [add_rust_messages] by a list of calls. *)
Definition added (l : list Call) : list Message :=
  omap (fun c => match c with
                 | CAddRustMessages m => Some m
                 | _ => None
                 end) l.

(** The targets whose process was launched, in order. *)
Definition launched (l : list Call) : list (option string) :=
  omap (fun c => match c with
                 | CProcRun _ _ _ src => Some src
                 | _ => None
                 end) l.

Definition is_finished (c : Call) : bool :=
  match c with
  | CMessagesFinished => true
  | _ => false
  end.

Definition is_clear (c : Call) : bool :=
  match c with
  | CClearMessages => true
  | _ => false
  end.

Definition is_determine_targets (c : Call) : bool :=
  match c with
  | CDetermineTargets _ => true
  | _ => false
  end.


(** What a listener callback may call. *)
Definition listener_call (c : Call) : bool :=
  match c with
  | CPrint _ | CAddRustMessages _ => true
  | _ => false
  end.

(** What [p.wait()] may add to the log. *)
Definition wait_call (c : Call) : bool :=
  match c with
  | CProcWait => true
  | _ => listener_call c
  end.

(** What [get_rustc_messages] may call. *)
Definition checker_call (c : Call) : bool :=
  match c with
  | CSettingsLoad | CGetCommand _ _ | CDetermineTargets _
  | CProcRun _ _ _ _ => true
  | _ => wait_call c
  end.

(** [s'] is reached from [s] by calls among [allowed]: the thread keeps
    its file and directory, the status line is untouched, the found
    flag is not taken back, and the store gains what was added. *)
Record grows (allowed : Call -> bool) (s s' : State) : Prop := mkGrows {
  grows_file : triggered_file_name s' = triggered_file_name s;
  grows_cwd : cwd s' = cwd s;
  grows_status : view_status s' = view_status s;
  grows_found : this_view_found s = true -> this_view_found s' = true;
  grows_log : exists l : list Call,
                log s' = (log s ++ l)%list /\
                forallb allowed l = true /\
                store s' = (store s ++ added l)%list
}.

(** A statement all of whose runs are related by [R]. *)
Definition preserves (R : State -> State -> Prop) (c : Stmt) : Prop :=
  forall s, R s (fst (c s)).

(** The JSON objects among the events of a process, in order. *)
Definition json_objs (evs : list (@ProcEvent JsonObj)) : list JsonObj :=
  omap (fun ev => match ev with
                  | EvJson obj => Some obj
                  | _ => None
                  end) evs.

(** The lines which a process wrote to its error stream, in order. *)
Definition error_lines (evs : list (@ProcEvent JsonObj)) : list string :=
  omap (fun ev => match ev with
                  | EvError message => Some message
                  | _ => None
                  end) evs.

(** The lines printed by a list of calls. *)
Definition printed (l : list Call) : list string :=
  omap (fun c => match c with
                 | CPrint line => Some line
                 | _ => None
                 end) l.

(** The directories in which processes were launched, in order. *)
Definition launch_dirs (l : list Call) : list (option string) :=
  omap (fun c => match c with
                 | CProcRun _ dir _ _ => Some dir
                 | _ => None
                 end) l.

(** The calls which [get_rustc_messages] makes outside [on_json], as
    they can be made in state [s]: a process is launched in the
    directory and for the target which the thread holds, and the
    targets are asked for the file which it holds. *)
Definition plain_call (s : State) (c : Call) : Prop :=
  match c with
  | CPrint _ | CSettingsLoad | CGetCommand _ _ | CProcWait => True
  | CDetermineTargets file => file = triggered_file_name s
  | CProcRun _ dir _ src => dir = cwd s /\ src = current_target_src s
  | _ => False
  end.

(** What the callbacks of a listener holding the base path [rel] and
    the target [src] call for the events of a process: a JSON object is
    added to the messages, a line of the error stream is printed. *)
Definition callback_calls (rel src : option string)
    (evs : list (@ProcEvent JsonObj)) : list Call :=
  omap (fun ev => match ev with
                  | EvJson obj =>
                      Some (CAddRustMessages (mkMessage rel obj src))
                  | EvError message =>
                      Some (CPrint ("Rust Error: " ++ message))
                  | _ => None
                  end) evs.

(** The files for which the targets were asked, in order. *)
Definition asked_files (l : list Call) : list (option string) :=
  omap (fun c => match c with
                 | CDetermineTargets file => Some file
                 | _ => None
                 end) l.

End Log.

(** ** Invariants of a run *)

Section Invariants.

Context {CommandInfo JsonObj : Type}.
Variable H : @Host CommandInfo JsonObj.

(** From [s] to [s'] the thread keeps its directory and its file, every
    process is launched in that directory and the targets are asked for
    that file. *)
Definition stays_put (s s' : @State JsonObj) : Prop :=
  cwd s' = cwd s /\
  triggered_file_name s' = triggered_file_name s /\
  exists l, log s' = (log s ++ l)%list /\
            Forall (eq (cwd s)) (launch_dirs l) /\
            Forall (eq (triggered_file_name s)) (asked_files l).

(** The thread holds the file [name], and its found flag is what
    [messages.has_message_for_path] answers for that file. *)
Definition flag_agrees (name : string) (s : @State JsonObj) : Prop :=
  triggered_file_name s = Some name /\
  this_view_found s = has_message_for_path H (store s) (Some name).

(** The launch of the process of target [t] by the loop of a thread
    whose directory is [dir]: the command is asked for this target
    alone and changed for [method]. *)
Definition invocation (method : string) (ci : CommandInfo)
    (dir : option string) (t : string * list string) : @Call JsonObj :=
  let cmd := get_command H method ci dir dir (Some (join " " (snd t))) true in
  CProcRun (augment H method (snd t) cmd) dir (env cmd) (Some (fst t)).

(** The events on which a callback of the thread does something. *)
Definition heard (ev : @ProcEvent JsonObj) : bool :=
  match ev with
  | EvJson _ | EvError _ => true
  | _ => false
  end.

(** Whether [messages.has_message_for_path] answers yes for [file]
    right after one of the messages [ms] has been added, one after the
    other, to the store [st]: this is what [on_json] asks after each
    message. *)
Fixpoint reported (file : option string) (st ms : list (@Message JsonObj))
    : bool :=
  match ms with
  | [] => false
  | m :: ms' =>
      has_message_for_path H (st ++ [m]) file ||
      reported file (st ++ [m]) ms'
  end.

(** The process which the loop launches for target [t] when [k]
    processes were launched before and the thread's directory is
    [dir]. *)
Definition target_script (method : string) (ci : CommandInfo)
    (dir : option string) (k : nat) (t : string * list string)
    : @ProcScript JsonObj :=
  let cmd := get_command H method ci dir dir (Some (join " " (snd t))) true in
  proc_script H k (augment H method (snd t) cmd) dir (env cmd).

(** The messages which that process has added when all its JSON
    objects have been handed to [on_json]. *)
Definition target_messages (method : string) (ci : CommandInfo)
    (dir : option string) (k : nat) (t : string * list string)
    : list (@Message JsonObj) :=
  let cmd := get_command H method ci dir dir (Some (join " " (snd t))) true in
  map (fun obj => mkMessage (Some (msg_rel_path cmd)) obj (Some (fst t)))
      (json_objs (events (target_script method ci dir k t))).

(** The messages of the targets [ts], launched one after the other. *)
Fixpoint targets_messages (method : string) (ci : CommandInfo)
    (dir : option string) (k : nat) (ts : list (string * list string))
    : list (@Message JsonObj) :=
  match ts with
  | [] => []
  | t :: ts' =>
      target_messages method ci dir k t ++
      targets_messages method ci dir (S k) ts'
  end.

(** The processes of the targets [ts], launched one after the other,
    all start and all end without an exception. *)
Fixpoint all_end (method : string) (ci : CommandInfo)
    (dir : option string) (k : nat) (ts : list (string * list string))
    : Prop :=
  match ts with
  | [] => True
  | t :: ts' =>
      spawn (target_script method ci dir k t) = None /\
      exit (target_script method ci dir k t) = None /\
      all_end method ci dir (S k) ts'
  end.

End Invariants.

(** ** Lemmas on the statement combinators *)

Section Combinators.

Context {JsonObj : Type}.

#[local] Abbreviation State := (@State JsonObj).
#[local] Abbreviation Stmt := (@Stmt JsonObj).

Variable R : State -> State -> Prop.
Hypothesis R_refl : forall s, R s s.
Hypothesis R_trans : forall s1 s2 s3, R s1 s2 -> R s2 s3 -> R s1 s3.

Lemma preserves_pass : preserves R pass.
Proof. intros s. apply R_refl. Qed.

Lemma preserves_return : preserves R return_.
Proof. intros s. apply R_refl. Qed.

Lemma preserves_break : preserves R break_.
Proof. intros s. apply R_refl. Qed.

Lemma preserves_raise e : preserves R (raise e).
Proof. intros s. apply R_refl. Qed.

Lemma preserves_seq (a b : Stmt) :
  preserves R a -> preserves R b -> preserves R (seq a b).
Proof.
  intros Ha Hb s. unfold seq.
  specialize (Ha s). destruct (a s) as [s1 c]. simpl in Ha.
  destruct c; simpl; auto.
  eapply R_trans; [exact Ha | apply Hb].
Qed.

Lemma preserves_if (c : bool) (a b : Stmt) :
  preserves R a -> preserves R b -> preserves R (if_ c a b).
Proof. destruct c; simpl; auto. Qed.

Lemma preserves_call (a : Stmt) : preserves R a -> preserves R (call a).
Proof.
  intros Ha s. unfold call. specialize (Ha s).
  destruct (a s) as [s1 c]. destruct c; exact Ha.
Qed.

Lemma preserves_for_each {A : Type} (xs : list A) (body : A -> Stmt) :
  (forall x, preserves R (body x)) -> preserves R (for_each xs body).
Proof.
  intros Hb. induction xs as [|x xs IH]; intros s; simpl.
  - apply R_refl.
  - specialize (Hb x s). destruct (body x s) as [s1 c]. simpl in Hb.
    destruct c; simpl; auto.
    eapply R_trans; [exact Hb | apply IH].
Qed.

Lemma preserves_try_except (body handler : Stmt) :
  preserves R body -> preserves R handler ->
  preserves R (try_except_terminated body handler).
Proof.
  intros Hb Hh s. unfold try_except_terminated.
  specialize (Hb s). destruct (body s) as [s1 c]. simpl in Hb.
  destruct c as [| | |e]; simpl; auto.
  destruct e; simpl; auto.
  eapply R_trans; [exact Hb | apply Hh].
Qed.

Lemma preserves_read (f : State -> Stmt) :
  (forall s0, preserves R (f s0)) -> preserves R (fun s => f s s).
Proof. intros Hf s. apply Hf. Qed.

Lemma preserves_update (f : State -> State) :
  (forall s, R s (f s)) -> preserves R (update f).
Proof. intros Hf s. apply Hf. Qed.

End Combinators.

(** ** What the checker leaves alone *)

Section Frame.

Context {CommandInfo JsonObj : Type}.
Variable H : @Host CommandInfo JsonObj.

#[local] Abbreviation State := (@State JsonObj).
#[local] Abbreviation Call := (@Call JsonObj).

Lemma grows_refl allowed (s : State) : grows allowed s s.
Proof.
  split; auto. exists []. simpl. by rewrite !app_nil_r.
Qed.

Lemma grows_trans allowed (s1 s2 s3 : State) :
  grows allowed s1 s2 -> grows allowed s2 s3 -> grows allowed s1 s3.
Proof.
  intros [F1 C1 V1 M1 (l1 & L1 & A1 & S1)] [F2 C2 V2 M2 (l2 & L2 & A2 & S2)].
  split; try congruence; auto.
  exists (l1 ++ l2)%list. rewrite L2, L1, S2, S1.
  unfold added. rewrite omap_app, forallb_app, A1, A2, !app_assoc. auto.
Qed.

Lemma grows_weaken (P Q : Call -> bool) (s s' : State) :
  (forall c, P c = true -> Q c = true) -> grows P s s' -> grows Q s s'.
Proof.
  intros PQ [F C V M (l & L & A & S)]. split; auto.
  exists l. repeat split; auto.
  rewrite forallb_forall in *. auto.
Qed.

Lemma preserves_weaken (P Q : Call -> bool) (c : @Stmt JsonObj) :
  (forall x, P x = true -> Q x = true) ->
  preserves (grows P) c -> preserves (grows Q) c.
Proof. intros PQ Hc s. eapply grows_weaken; eauto. Qed.

Lemma grows_emit allowed (c : Call) (s : State) :
  allowed c = true -> added [c] = [] -> grows allowed s (emit c s).
Proof.
  intros Hc Ha. split; auto. exists [c]. split; [reflexivity | split].
  - simpl. by rewrite Hc.
  - rewrite Ha. simpl. by rewrite app_nil_r.
Qed.

Lemma grows_add allowed (m : Message) (s : State) :
  allowed (CAddRustMessages m) = true ->
  grows allowed s (emit (CAddRustMessages m) (set_store (store s ++ [m]) s)).
Proof.
  intros Hc. split; auto. exists [CAddRustMessages m]. simpl.
  rewrite Hc. auto.
Qed.

Lemma grows_set_msg_rel_path allowed v (s : State) :
  grows allowed s (set_msg_rel_path v s).
Proof. split; auto. exists []. simpl. by rewrite !app_nil_r. Qed.

Lemma grows_set_current_target_src allowed v (s : State) :
  grows allowed s (set_current_target_src v s).
Proof. split; auto. exists []. simpl. by rewrite !app_nil_r. Qed.

Lemma grows_set_found allowed (s : State) :
  grows allowed s (set_this_view_found true s).
Proof. split; auto. exists []. simpl. by rewrite !app_nil_r. Qed.

Lemma frame_seq allowed (a b : @Stmt JsonObj) :
  preserves (grows allowed) a -> preserves (grows allowed) b ->
  preserves (grows allowed) (seq a b).
Proof. apply preserves_seq, grows_trans. Qed.

Lemma frame_call allowed (a : @Stmt JsonObj) :
  preserves (grows allowed) a -> preserves (grows allowed) (call a).
Proof. apply preserves_call. Qed.

Lemma frame_for_each allowed {A : Type} (xs : list A)
    (body : A -> @Stmt JsonObj) :
  (forall x, preserves (grows allowed) (body x)) ->
  preserves (grows allowed) (for_each xs body).
Proof. apply preserves_for_each; [apply grows_refl | apply grows_trans]. Qed.

Lemma frame_skip allowed (c : @Stmt JsonObj) :
  (forall s, fst (c s) = s) -> preserves (grows allowed) c.
Proof. intros Hc s. rewrite Hc. apply grows_refl. Qed.

Lemma frame_option allowed (o : option exn) :
  preserves (grows allowed)
    (match o with Some e => raise e | None => pass end : @Stmt JsonObj).
Proof. destruct o; by apply frame_skip. Qed.

Ltac frame_step :=
  first
    [ apply frame_seq
    | apply preserves_if
    | apply frame_call
    | apply frame_for_each; intros ?
    | apply frame_option
    | apply frame_skip; reflexivity
    | apply preserves_update; intros ?;
      first [ apply grows_emit; reflexivity
            | apply grows_add; reflexivity
            | apply grows_set_msg_rel_path
            | apply grows_set_current_target_src
            | apply grows_set_found ] ].

Lemma on_json_listens obj : preserves (grows listener_call) (on_json H obj).
Proof.
  intros s. unfold on_json. revert s.
  apply (preserves_read (grows listener_call)
           (fun s0 => seq (add_rust_messages _) (fun s1 => if_ _ _ _ s1))).
  intros s0. frame_step.
  - unfold add_rust_messages. frame_step.
  - intros s1. destruct (has_message_for_path H _ _); simpl.
    + apply grows_set_found.
    + apply grows_refl.
Qed.

Lemma deliver_listens ev : preserves (grows listener_call) (deliver H ev).
Proof.
  destruct ev; simpl; apply frame_call.
  - by apply frame_skip.
  - by apply frame_skip.
  - unfold on_error, print. frame_step.
  - apply on_json_listens.
  - by apply frame_skip.
  - by apply frame_skip.
Qed.

Lemma proc_wait_waits p : preserves (grows wait_call) (proc_wait H p).
Proof.
  unfold proc_wait. repeat frame_step.
  apply (preserves_weaken listener_call); [by intros [] | ].
  apply deliver_listens.
Qed.

Lemma proc_run_checks (p : @ProcScript JsonObj) argv penv :
  preserves (grows checker_call) (proc_run p argv penv).
Proof.
  intros s. unfold proc_run. revert s.
  apply (preserves_read (grows checker_call) (fun s0 => seq (update _) _)).
  intros s0. repeat frame_step.
Qed.

Lemma run_and_wait_checks argv penv :
  preserves (grows checker_call) (run_and_wait H argv penv).
Proof.
  intros s. unfold run_and_wait. revert s.
  apply (preserves_read (grows checker_call)
           (fun s0 => seq (proc_run _ argv penv) (proc_wait H _))).
  intros s0. frame_step.
  - apply proc_run_checks.
  - apply (preserves_weaken wait_call); [by intros [] | ].
    apply proc_wait_waits.
Qed.

Lemma check_target_checks method ci t :
  preserves (grows checker_call) (check_target H method ci t).
Proof.
  intros s. unfold check_target. revert s.
  apply (preserves_read (grows checker_call)
           (fun s0 => seq (update _) (seq (update _) (seq (update _)
              (seq (run_and_wait H _ _) (fun s1 => if_ _ _ _ s1)))))).
  intros s0. do 4 (frame_step; [try frame_step | ]).
  - apply run_and_wait_checks.
  - intros s1. destruct (this_view_found s1); apply grows_refl.
Qed.

Lemma check_all_checks method ci :
  preserves (grows checker_call) (check_all H method ci).
Proof.
  intros s. unfold check_all. revert s.
  apply (preserves_read (grows checker_call)
           (fun s0 => seq (update _) (seq (update _)
              (seq (run_and_wait H _ _) return_)))).
  intros s0. do 3 (frame_step; [try frame_step | ]).
  - apply run_and_wait_checks.
  - frame_step.
Qed.

Lemma check_targets_checks method ci :
  preserves (grows checker_call) (check_targets H method ci).
Proof.
  intros s. unfold check_targets. revert s.
  apply (preserves_read (grows checker_call)
           (fun s0 => seq (update _) (for_each _ _))).
  intros s0. frame_step; frame_step.
  apply check_target_checks.
Qed.

Lemma get_rustc_messages_checks :
  preserves (grows checker_call) (get_rustc_messages H).
Proof.
  unfold get_rustc_messages. frame_step; [frame_step | ].
  destruct (CARGO_COMMANDS H _) as [ci|]; [ | frame_step].
  frame_step.
  - frame_step; [apply check_all_checks | frame_step].
  - apply check_targets_checks.
Qed.

End Frame.

(** ** How the statements of the thread complete *)

Section Exec.

Context {CommandInfo JsonObj : Type}.
Variable H : @Host CommandInfo JsonObj.

#[local] Abbreviation State := (@State JsonObj).
#[local] Abbreviation Call := (@Call JsonObj).

Lemma calls_since_app (s s' : State) (l : list Call) :
  log s' = (log s ++ l)%list -> calls_since s s' = l.
Proof. intros E. unfold calls_since. rewrite E. apply drop_app_length. Qed.

Lemma calls_since_refl (s : State) : calls_since s s = [].
Proof. apply calls_since_app. by rewrite app_nil_r. Qed.

Lemma launched_app (l1 l2 : list Call) :
  launched (l1 ++ l2) = (launched l1 ++ launched l2)%list.
Proof. apply omap_app. Qed.

Lemma proc_runs_app (l1 l2 : list Call) :
  proc_runs (l1 ++ l2) = (proc_runs l1 ++ proc_runs l2)%list.
Proof. apply List.filter_app. Qed.

Lemma launched_wait (l : list Call) :
  forallb wait_call l = true -> launched l = [].
Proof.
  induction l as [|c l IH]; [done | ]. simpl.
  intros [Hc Hl]%andb_prop. destruct c; try discriminate; simpl; auto.
Qed.

Lemma proc_runs_wait (l : list Call) :
  forallb wait_call l = true -> proc_runs l = [].
Proof.
  induction l as [|c l IH]; [done | ]. simpl.
  intros [Hc Hl]%andb_prop. destruct c; try discriminate; simpl; auto.
Qed.

Lemma finished_checker (l : list Call) :
  forallb checker_call l = true -> List.filter is_finished l = [].
Proof.
  induction l as [|c l IH]; [done | ]. simpl.
  intros [Hc Hl]%andb_prop. destruct c; try discriminate; simpl; auto.
Qed.

Lemma filter_none (P Q : Call -> bool) l :
  (forall c, P c = true -> Q c = false) ->
  forallb P l = true -> List.filter Q l = [].
Proof.
  intros PQ. induction l as [|c l IH]; [done | ]. simpl.
  intros [Hc Hl]%andb_prop. rewrite (PQ c Hc). auto.
Qed.

Lemma deliver_normal ev (s : State) : snd (deliver H ev s) = Normal.
Proof.
  destruct ev; try reflexivity.
  simpl. unfold call, on_json, seq, add_rust_messages, update, if_.
  simpl. by destruct (has_message_for_path H _ _).
Qed.

Lemma for_each_deliver_normal evs (s : State) :
  snd (for_each evs (deliver H) s) = Normal.
Proof.
  revert s. induction evs as [|ev evs IH]; intros s; [done | ]. simpl.
  pose proof (deliver_normal ev s) as E.
  destruct (deliver H ev s) as [s1 c]. simpl in E. subst c. apply IH.
Qed.

(** The launch is logged first; what follows is the wait. *)
Lemma run_and_wait_spec argv penv (s : State) :
  let p := proc_script H (length (proc_runs (log s))) argv (cwd s) penv in
  let out := run_and_wait H argv penv s in
  (exists l, log (fst out) =
               (log s ++ CProcRun argv (cwd s) penv (current_target_src s)
                         :: l)%list /\
             forallb wait_call l = true) /\
  snd out = match spawn p, exit p with
            | Some e, _ => Raise e
            | None, Some e => Raise e
            | None, None => Normal
            end.
Proof.
  intros p out. subst out. unfold run_and_wait. fold p.
  unfold seq at 1. unfold proc_run. unfold seq at 1. unfold update at 1.
  set (s1 := emit _ s).
  destruct (spawn p) as [e|]; unfold pass, raise; cbv beta iota.
  - split; [ | done]. exists []. by subst s1.
  - destruct (proc_wait_waits H p s1) as [_ _ _ _ (l & L & A & _)].
    split.
    + exists l. split; [ | done]. rewrite L. subst s1. simpl.
      by rewrite <- app_assoc.
    + clear L A. unfold proc_wait, seq, update.
      pose proof (for_each_deliver_normal (events p) (emit CProcWait s1)) as E.
      destruct (for_each _ _ _) as [s2 c]. simpl in E. subst c.
      by destruct (exit p).
Qed.

(** One iteration of the loop, statement by statement. *)
Lemma check_target_eq method ci t (s : State) :
  let target := Some (join " " (snd t)) in
  let cmd := get_command H method ci (cwd s) (cwd s) target true in
  let s1 := set_current_target_src (Some (fst t))
              (set_msg_rel_path (Some (msg_rel_path cmd))
                 (emit (CGetCommand method target) s)) in
  check_target H method ci t s =
  match run_and_wait H (augment H method (snd t) cmd) (env cmd) s1 with
  | (s2, Normal) => (s2, if this_view_found s2 then Break else Normal)
  | (s2, c) => (s2, c)
  end.
Proof.
  intros target cmd s1. unfold check_target, seq, update, if_.
  fold target cmd. cbv beta iota. fold s1.
  destruct (run_and_wait H _ _ s1) as [s2 []]; try reflexivity.
  by destruct (this_view_found s2).
Qed.

(** One iteration: the command is asked for, the process launched for
    this target, and the iteration ends by [break] exactly when the
    found flag is set. *)
Lemma check_target_spec method ci t (s : State) :
  let target := Some (join " " (snd t)) in
  let cmd := get_command H method ci (cwd s) (cwd s) target true in
  let out := check_target H method ci t s in
  (exists l, log (fst out) =
               (log s ++ [CGetCommand method target;
                          CProcRun (augment H method (snd t) cmd) (cwd s)
                                   (env cmd) (Some (fst t))] ++ l)%list /\
             forallb wait_call l = true) /\
  match snd out with
  | Normal => this_view_found (fst out) = false
  | Break => this_view_found (fst out) = true
  | Return => False
  | Raise _ => True
  end.
Proof.
  intros target cmd out. subst out. rewrite check_target_eq.
  fold target cmd. cbv zeta.
  set (s1 := set_current_target_src _ _).
  destruct (run_and_wait_spec (augment H method (snd t) cmd) (env cmd) s1)
    as [(l & L & A) C].
  destruct (run_and_wait H _ _ s1) as [s2 c]. simpl in L, C.
  assert (E : log s2 =
              (log s ++ [CGetCommand method target;
                         CProcRun (augment H method (snd t) cmd) (cwd s)
                                  (env cmd) (Some (fst t))] ++ l)%list).
  { rewrite L. subst s1. simpl. by rewrite <- app_assoc. }
  destruct c as [| | |e].
  - destruct (this_view_found s2) eqn:F; simpl;
      (split; [exists l; auto | auto]).
  - exfalso. repeat case_match; discriminate.
  - exfalso. repeat case_match; discriminate.
  - simpl. split; [exists l; auto | auto].
Qed.

End Exec.

(** ** The shape of [run] *)

Section Run.

Context {CommandInfo JsonObj : Type}.
Variable H : @Host CommandInfo JsonObj.

#[local] Abbreviation State := (@State JsonObj).
#[local] Abbreviation Call := (@Call JsonObj).

Lemma entered_eq (s : State) :
  let name := abspath H (file_name H) in
  entered H s =
  emit CClearMessages
    (set_store []
       (set_this_view_found false
          (emit (CSetStatus status_key status_running)
             (set_view_status
                (<[status_key := status_running]> (view_status s))
                (set_cwd (find_cargo_manifest H name)
                   (set_triggered_file_name (Some name) s)))))).
Proof. reflexivity. Qed.

Lemma run_found (s : State) dir :
  find_cargo_manifest H (abspath H (file_name H)) = Some dir ->
  run H s =
  let out := call (get_rustc_messages H) (entered H s) in
  leave (fst out) (snd out).
Proof.
  intros Hdir. rewrite entered_eq. cbv zeta.
  set (g := call (get_rustc_messages H)).
  unfold run, run_checked. fold g.
  unfold set_status, clear_messages.
  unfold seq, update, if_, try_finally, try_except_terminated, pass.
  cbn [cwd set_cwd]. rewrite Hdir.
  rewrite bool_decide_eq_false_2 by done.
  cbv beta iota.
  set (s1 := emit CClearMessages _).
  destruct (g s1) as [s2 [| | |[]]]; reflexivity.
Qed.

Lemma run_not_found (s : State) :
  let name := abspath H (file_name H) in
  find_cargo_manifest H name = None ->
  run H s =
  (emit (CPrint "A Cargo.toml manifest is required.")
     (emit (CPrint ("Failed to find Cargo.toml from " ++ py_repr H name))
        (emit (CPrint "Rust Enhanced skipping on-save syntax check.")
           (set_cwd None (set_triggered_file_name (Some name) s)))),
   Return).
Proof.
  intros name Hnone. unfold run. fold name.
  unfold seq at 1 2 3, update at 1 2, if_.
  cbn [cwd set_cwd]. rewrite Hnone.
  rewrite bool_decide_eq_true_2 by done.
  reflexivity.
Qed.

(** Without a manifest the run only prints. *)
Lemma no_manifest_run (s : State) :
  let name := abspath H (file_name H) in
  find_cargo_manifest H name = None ->
  let out := run H s in
  let calls := calls_since s (fst out) in
  snd out = Return /\
  log (fst out) = (log s ++ calls)%list /\
  calls = [CPrint "Rust Enhanced skipping on-save syntax check.";
           CPrint ("Failed to find Cargo.toml from " ++ py_repr H name);
           CPrint "A Cargo.toml manifest is required."] /\
  store (fst out) = store s /\
  view_status (fst out) = view_status s.
Proof.
  intros name Hnone out calls. subst calls out.
  rewrite (run_not_found s Hnone). fold name. cbn [fst snd].
  set (l := [_; _; _]).
  match goal with
  | |- context [calls_since s ?s3] =>
      assert (L : log s3 = (log s ++ l)%list)
        by (simpl; by rewrite <- !app_assoc);
      rewrite (calls_since_app s s3 l L)
  end.
  auto.
Qed.

End Run.

(** ** The save event *)

(** C9: on a host older than build 3118 the save handler returns at once:
    the state, its log included, is what it was, so no thread is started
    and nothing is cleared, whatever the settings say. *)
Theorem old_host_does_nothing {CommandInfo JsonObj : Type}
    (H : @Host CommandInfo JsonObj) (s : @State JsonObj) :
  sublime_version H < 3118 ->
  on_post_save H s = (s, Return).
Proof.
  intros Hv. unfold on_post_save, seq, if_.
  apply Z.ltb_lt in Hv. by rewrite Hv.
Qed.

Lemma save_on_build_3000 :
  on_post_save
    (Demo.host 3000 false (Some "/proj") "check" true Demo.scripts_quiet)
    Demo.busy = (Demo.busy, Return).
Proof.
  apply (old_host_does_nothing
           (Demo.host 3000 false (Some "/proj") "check" true
                      Demo.scripts_quiet)).
  simpl. lia.
Defined.

(** On a recent host the same settings do clear the messages. *)
Lemma disabled_clears {CommandInfo JsonObj : Type}
    (H : @Host CommandInfo JsonObj) (s : @State JsonObj) :
  3118 <= sublime_version H ->
  rust_syntax_checking H = false ->
  on_post_save H s = (emit CClearMessages (set_store [] s), Normal).
Proof.
  intros Hv He. unfold on_post_save, seq, if_.
  apply Z.ltb_ge in Hv. by rewrite Hv, He.
Qed.

(** On a recent host with checking on, a Rust view gets its thread. *)
Lemma enabled_starts_thread {CommandInfo JsonObj : Type}
    (H : @Host CommandInfo JsonObj) (s : @State JsonObj) :
  3118 <= sublime_version H ->
  rust_syntax_checking H = true ->
  active_view_is_rust H = true ->
  on_post_save H s = (emit CThreadStart s, Normal).
Proof.
  intros Hv He Hr. unfold on_post_save, seq, if_.
  apply Z.ltb_ge in Hv. by rewrite Hv, He, Hr.
Qed.

(** ** No manifest *)

(** C7: when no manifest is found above the saved file, [run] returns
    without raising; the only calls it makes are the three prints, so
    the messages of the window are not cleared, no target is asked for
    and no process is launched. *)
Theorem no_manifest_silent_abort {CommandInfo JsonObj : Type}
    (H : @Host CommandInfo JsonObj) (s : @State JsonObj) :
  find_cargo_manifest H (abspath H (file_name H)) = None ->
  let out := run H s in
  let calls := calls_since s (fst out) in
  snd out = Return /\
  log (fst out) = (log s ++ calls)%list /\
  calls = [CPrint "Rust Enhanced skipping on-save syntax check.";
           CPrint ("Failed to find Cargo.toml from " ++
                   py_repr H (abspath H (file_name H)));
           CPrint "A Cargo.toml manifest is required."] /\
  store (fst out) = store s /\
  (CClearMessages ∉ calls) /\
  List.filter is_determine_targets calls = [] /\
  proc_runs calls = [].
Proof.
  intros Hnone out calls.
  destruct (no_manifest_run H s Hnone) as (R & L & C & S & _).
  fold out in R, L, C, S. fold calls in L, C.
  repeat split; auto.
  - rewrite C. intros Hin.
    repeat (apply elem_of_cons in Hin as [Hin|Hin]; [discriminate | ]).
    by apply elem_of_nil in Hin.
  - rewrite C. reflexivity.
  - rewrite C. reflexivity.
Qed.

Lemma save_outside_a_package :
  let H := Demo.host 4000 true None "check" true Demo.scripts_quiet in
  snd (run H Demo.busy) = Return /\
  store (fst (run H Demo.busy)) = store Demo.busy.
Proof.
  intros H.
  destruct (no_manifest_silent_abort H Demo.busy eq_refl)
    as (R & _ & _ & S & _).
  split; [exact R | exact S].
Defined.

(** C10: in the run which finds no manifest the status line of the view
    and the messages of the window are what they were: every call made
    is a print, so the status is never set and the messages are never
    cleared. *)
Theorem no_manifest_leaves_window {CommandInfo JsonObj : Type}
    (H : @Host CommandInfo JsonObj) (s : @State JsonObj) :
  find_cargo_manifest H (abspath H (file_name H)) = None ->
  let out := run H s in
  let calls := calls_since s (fst out) in
  view_status (fst out) = view_status s /\
  store (fst out) = store s /\
  log (fst out) = (log s ++ calls)%list /\
  Forall (fun c => exists line, c = CPrint line) calls /\
  (forall key value, CSetStatus key value ∉ calls) /\
  CClearMessages ∉ calls.
Proof.
  intros Hnone out calls.
  destruct (no_manifest_run H s Hnone) as (_ & L & C & S & V).
  fold out in L, C, S, V. fold calls in L, C.
  assert (P : Forall (fun c => exists line, c = CPrint line) calls).
  { rewrite C. repeat constructor; eauto. }
  rewrite Forall_forall in P.
  repeat split; auto.
  - by apply Forall_forall.
  - intros key value Hin. destruct (P _ Hin) as [line E]. discriminate.
  - intros Hin. destruct (P _ Hin) as [line E]. discriminate.
Qed.

Lemma busy_view_outside_a_package :
  let H := Demo.host 4000 true None "check" true Demo.scripts_quiet in
  view_status (fst (run H Demo.busy)) = view_status Demo.busy.
Proof.
  intros H.
  exact (proj1 (no_manifest_leaves_window H Demo.busy eq_refl)).
Defined.

(** ** The status line *)

Section Leaving.

Context {CommandInfo JsonObj : Type}.
Variable H : @Host CommandInfo JsonObj.

(** However [get_rustc_messages] completes, the status is erased last. *)
Lemma leave_erases (s2 : @State JsonObj) c :
  view_status (fst (leave s2 c)) = delete status_key (view_status s2) /\
  exists mid, log (fst (leave s2 c)) =
                (log s2 ++ mid ++ [CEraseStatus status_key])%list /\
              (mid = [] \/ (c = Normal /\ mid = [CMessagesFinished])) /\
              store (fst (leave s2 c)) = store s2 /\
              this_view_found (fst (leave s2 c)) = this_view_found s2.
Proof.
  destruct c as [| | |[]]; simpl; (split; [reflexivity | ]).
  all: try (exists []; simpl; by auto).
  exists [CMessagesFinished]. simpl. rewrite <- app_assoc. auto.
Qed.

(** The calls of a whole run which found its manifest. *)
Lemma run_found_log (s : @State JsonObj) dir :
  find_cargo_manifest H (abspath H (file_name H)) = Some dir ->
  let mid := call (get_rustc_messages H) (entered H s) in
  exists l tail,
    log (fst mid) = (log (entered H s) ++ l)%list /\
    forallb checker_call l = true /\
    store (fst mid) = added l /\
    (tail = [] \/ (snd mid = Normal /\ tail = [CMessagesFinished])) /\
    log (fst (run H s)) =
      (log s ++ [CSetStatus status_key status_running; CClearMessages] ++
       l ++ tail ++ [CEraseStatus status_key])%list /\
    store (fst (run H s)) = added l /\
    view_status (fst (run H s)) !! status_key = None.
Proof.
  intros Hdir mid. rewrite (run_found H s dir Hdir). cbv zeta. fold mid.
  pose proof (preserves_call _ _ (get_rustc_messages_checks H) (entered H s))
    as [_ _ _ _ (l & L & A & S)].
  fold mid in L, S.
  destruct (leave_erases (fst mid) (snd mid)) as (V & tail & T & C & S' & _).
  exists l, tail. repeat split; auto.
  - rewrite T, L. rewrite entered_eq. simpl. by rewrite <- !app_assoc.
  - by rewrite S', S.
  - rewrite V. apply lookup_delete_eq.
Qed.

End Leaving.

(** C6, as it holds: once a manifest is found the status is erased when
    [run] is left, however [get_rustc_messages] completes: normally (the
    run completes), by [ProcessTerminatedError] (the run returns), or by
    any other exception (which leaves [run]); when no manifest is found
    [run] neither sets nor erases the status, which is what it was
    before. *)
Theorem status_erased_or_untouched {CommandInfo JsonObj : Type}
    (H : @Host CommandInfo JsonObj) (s : @State JsonObj) :
  let name := abspath H (file_name H) in
  let checked := snd (get_rustc_messages H (entered H s)) in
  let out := run H s in
  (find_cargo_manifest H name <> None ->
   view_status (fst out) !! status_key = None /\
   last (log (fst out)) = Some (CEraseStatus status_key) /\
   (checked = Normal \/ checked = Return -> snd out = Normal) /\
   (checked = Raise ProcessTerminatedError -> snd out = Return) /\
   (forall e, e <> ProcessTerminatedError -> checked = Raise e ->
              snd out = Raise e)) /\
  (find_cargo_manifest H name = None ->
   view_status (fst out) = view_status s /\
   (view_status s !! status_key = None ->
    view_status (fst out) !! status_key = None)).
Proof.
  intros name checked out. split.
  - intros Hsome. destruct (find_cargo_manifest H name) as [dir|] eqn:Hdir;
      [ | done].
    destruct (run_found_log H s dir Hdir)
      as (l & tail & _ & _ & _ & _ & L & _ & V).
    fold out in L, V. split; [exact V | ]. split.
    { rewrite L, !app_assoc. apply last_snoc. }
    subst out checked. rewrite (run_found H s dir Hdir). cbv zeta.
    unfold call.
    destruct (get_rustc_messages H (entered H s)) as [s2 c]. simpl.
    split; [ | split].
    + by intros [-> | ->].
    + by intros ->.
    + intros e Hne ->. by destruct e.
  - intros Hnone.
    destruct (no_manifest_run H s Hnone) as (_ & _ & _ & _ & V).
    fold out in V. rewrite V. auto.
Qed.

Lemma broken_cargo_erases_status :
  let H := Demo.host 4000 true (Some "/proj") "check" true
                     Demo.scripts_broken in
  view_status (fst (run H Demo.busy)) !! status_key = None /\
  snd (run H Demo.busy) = Raise (OSError "No such file or directory").
Proof.
  intros H.
  destruct (status_erased_or_untouched H Demo.busy) as [F _].
  destruct (F ltac:(discriminate)) as (V & _ & _ & _ & E).
  split; [exact V | ]. apply E; [discriminate | reflexivity].
Defined.

(** C6 as stated fails: on a view whose status is already shown, the
    run which finds no manifest returns with the status still there. *)
Lemma status_kept_without_manifest :
  ~ (forall (H : @Host string string) (s : @State string),
       view_status (fst (run H s)) !! status_key = None).
Proof.
  intros C.
  specialize (C (Demo.host 4000 true None "check" true Demo.scripts_quiet)
                Demo.busy).
  vm_compute in C. discriminate.
Qed.

(** ** Cancellation *)



(** ** The found flag *)

(** C8: [run] enters [get_rustc_messages] with the flag reset and no
    process launched yet; from there on the flag is only ever raised:
    [on_json] sets it when the store has a message for the saved file
    and leaves it otherwise, no other callback touches it, neither an
    iteration of the loop nor the whole of [get_rustc_messages] takes
    it back, and the end of [run] leaves it as it is. *)
Theorem found_flag_reset_then_monotone {CommandInfo JsonObj : Type}
    (H : @Host CommandInfo JsonObj) (s : @State JsonObj) (dir : string) :
  find_cargo_manifest H (abspath H (file_name H)) = Some dir ->
  this_view_found (entered H s) = false /\
  proc_runs (calls_since s (entered H s)) = [] /\
  (forall obj s1,
     this_view_found (fst (on_json H obj s1)) =
     this_view_found s1 ||
     has_message_for_path H
       (store s1 ++ [mkMessage (cur_msg_rel_path s1) obj
                               (current_target_src s1)])
       (triggered_file_name s1)) /\
  (forall ev s1, (forall obj, ev <> EvJson obj) ->
     this_view_found (fst (deliver H ev s1)) = this_view_found s1) /\
  (forall ev s1, this_view_found s1 = true ->
     this_view_found (fst (deliver H ev s1)) = true) /\
  (forall method ci t s1, this_view_found s1 = true ->
     this_view_found (fst (check_target H method ci t s1)) = true) /\
  (forall s1, this_view_found s1 = true ->
     this_view_found (fst (get_rustc_messages H s1)) = true) /\
  this_view_found (fst (run H s)) =
  this_view_found (fst (get_rustc_messages H (entered H s))).
Proof.
  intros Hdir. repeat split.
  - rewrite entered_eq. simpl.
    rewrite (calls_since_app s _
               [CSetStatus status_key status_running; CClearMessages]);
      [reflexivity | ]. simpl. by rewrite <- app_assoc.
  - intros obj s1. unfold on_json, seq, add_rust_messages, update, if_.
    simpl. destruct (has_message_for_path H _ _); simpl.
    + by rewrite orb_true_r.
    + by rewrite orb_false_r.
  - intros ev s1 Hev. destruct ev; try reflexivity. by destruct (Hev obj).
  - intros ev s1. apply (deliver_listens H ev s1).
  - intros method ci t s1. apply (check_target_checks H method ci t s1).
  - intros s1. apply (get_rustc_messages_checks H s1).
  - rewrite (run_found H s dir Hdir). cbv zeta.
    destruct (leave_erases (fst (call (get_rustc_messages H) (entered H s)))
                (snd (call (get_rustc_messages H) (entered H s))))
      as (_ & mid & _ & _ & _ & F).
    rewrite F. unfold call.
    by destruct (get_rustc_messages H (entered H s)) as [s2 []].
Qed.

Lemma flag_of_a_hit :
  let H := Demo.host 4000 true (Some "/proj") "check" true Demo.scripts_hit in
  this_view_found (entered H Demo.busy) = false /\
  this_view_found (fst (run H Demo.busy)) = true.
Proof.
  intros H.
  destruct (found_flag_reset_then_monotone H Demo.busy "/proj" eq_refl)
    as (F & _ & _ & _ & _ & _ & _ & E).
  split; [exact F | ]. rewrite E. vm_compute. reflexivity.
Defined.

(** ** The argument vector of a target *)

Section Launch.

Context {CommandInfo JsonObj : Type}.
Variable H : @Host CommandInfo JsonObj.

(** The one process which an iteration launches. *)
Lemma check_target_launch method ci t (s : @State JsonObj) :
  let target := Some (join " " (snd t)) in
  let cmd := get_command H method ci (cwd s) (cwd s) target true in
  proc_runs (calls_since s (fst (check_target H method ci t s))) =
  [CProcRun (augment H method (snd t) cmd) (cwd s) (env cmd) (Some (fst t))].
Proof.
  intros target cmd.
  destruct (check_target_spec H method ci t s) as [(l & L & A) _].
  fold target cmd in L. rewrite (calls_since_app _ _ _ L).
  rewrite proc_runs_app, (proc_runs_wait l A). reflexivity.
Qed.

End Launch.

(** C4: with the method "check" the process of a target is launched
    with the command of [get_command] followed by [--profile=test]
    exactly when tests are included and the version of rustc matches
    [>=1.23.0]; nothing is appended otherwise, so unless the command
    itself names the flag it is absent for a lower version, and absent
    whatever the version when tests are not included. *)
Theorem check_appends_test_profile {CommandInfo JsonObj : Type}
    (H : @Host CommandInfo JsonObj) (ci : CommandInfo)
    (t : string * list string) (s : @State JsonObj) :
  let target := Some (join " " (snd t)) in
  let cmd := get_command H "check" ci (cwd s) (cwd s) target true in
  let gate := rust_syntax_checking_include_tests H &&
              semver_match H (rustc_version cmd) ">=1.23.0" in
  let argv := (command cmd ++
               (if gate then ["--profile=test"] else []))%list in
  proc_runs (calls_since s (fst (check_target H "check" ci t s))) =
    [CProcRun argv (cwd s) (env cmd) (Some (fst t))] /\
  (gate = true <->
   rust_syntax_checking_include_tests H = true /\
   semver_match H (rustc_version cmd) ">=1.23.0" = true) /\
  ("--profile=test" ∉ command cmd ->
   ("--profile=test" ∈ argv <-> gate = true)).
Proof.
  intros target cmd gate argv. split; [ | split].
  - apply (check_target_launch H "check" ci t s).
  - subst gate. apply andb_true_iff.
  - intros Hbase. subst argv. destruct gate.
    + split; [done | ]. intros _. apply elem_of_app. right.
      apply list_elem_of_singleton. reflexivity.
    + rewrite app_nil_r. split; [done | discriminate].
Qed.

Lemma check_of_the_library :
  let H := Demo.host 4000 true (Some "/proj") "check" true
                     Demo.scripts_quiet in
  let argv := ["cargo"; "check"; "--message-format=json"; "--lib";
               "--profile=test"] in
  proc_runs
    (calls_since Demo.idle
       (fst (check_target H "check" "check" ("src/lib.rs", ["--lib"])
               Demo.idle))) =
  [CProcRun argv None [] (Some "src/lib.rs")] /\
  "--profile=test" ∈ argv.
Proof.
  intros H argv.
  destruct (check_appends_test_profile H "check" ("src/lib.rs", ["--lib"])
              Demo.idle) as (P & _ & W).
  split; [exact P | ].
  apply W; [ | reflexivity].
  vm_compute. intros Hin.
  repeat (apply elem_of_cons in Hin as [Hin|Hin]; [discriminate | ]).
  by apply elem_of_nil in Hin.
Defined.

(** C5: with the method "no-trans" the process of a target is always
    launched with [--], [-Zno-trans] and [-Zunstable-options] after the
    command of [get_command], followed by [--test] exactly when tests
    are included and the arguments of the target name neither [--test]
    nor [--bench]; the version of rustc and [semver.match] play no
    part. *)
Theorem no_trans_appends_flags {CommandInfo JsonObj : Type}
    (H : @Host CommandInfo JsonObj) (ci : CommandInfo)
    (t : string * list string) (s : @State JsonObj) :
  let target := Some (join " " (snd t)) in
  let cmd := get_command H "no-trans" ci (cwd s) (cwd s) target true in
  let as_test := rust_syntax_checking_include_tests H &&
                 negb (bool_decide ("--test" ∈ snd t) ||
                       bool_decide ("--bench" ∈ snd t)) in
  let argv := (command cmd ++ ["--"; "-Zno-trans"; "-Zunstable-options"] ++
               (if as_test then ["--test"] else []))%list in
  proc_runs (calls_since s (fst (check_target H "no-trans" ci t s))) =
    [CProcRun argv (cwd s) (env cmd) (Some (fst t))] /\
  (as_test = true <->
   rust_syntax_checking_include_tests H = true /\
   ("--test" ∉ snd t) /\ ("--bench" ∉ snd t)) /\
  (forall (H' : @Host CommandInfo JsonObj) (cmd' : Cmd),
     rust_syntax_checking_include_tests H' =
     rust_syntax_checking_include_tests H ->
     command cmd' = command cmd ->
     augment H' "no-trans" (snd t) cmd' = argv).
Proof.
  intros target cmd as_test argv. split; [ | split].
  - rewrite (check_target_launch H "no-trans" ci t s).
    fold target cmd. subst argv as_test. unfold augment. simpl.
    by rewrite <- app_assoc.
  - subst as_test. rewrite andb_true_iff, negb_true_iff, orb_false_iff.
    rewrite !bool_decide_eq_false. tauto.
  - intros H' cmd' Ht Hc. subst argv as_test. unfold augment. simpl.
    by rewrite Ht, Hc, <- app_assoc.
Qed.

Lemma no_trans_of_the_library :
  let H := Demo.host 4000 true (Some "/proj") "no-trans" true
                     Demo.scripts_quiet in
  augment (Demo.host 4000 true (Some "/proj") "no-trans" true
                     Demo.scripts_hit)
          "no-trans" ["--lib"]
          (mkCmd ["cargo"; "rustc"; "--message-format=json"; "--lib"]
                 [("RUSTFLAGS", "-Awarnings")] "/other" "1.10.0") =
  ["cargo"; "rustc"; "--message-format=json"; "--lib"; "--"; "-Zno-trans";
   "-Zunstable-options"; "--test"].
Proof.
  intros H.
  destruct (no_trans_appends_flags H "rustc" ("src/lib.rs", ["--lib"])
              Demo.idle) as (_ & _ & W).
  etransitivity.
  - exact (W (Demo.host 4000 true (Some "/proj") "no-trans" true
                        Demo.scripts_hit)
             (mkCmd ["cargo"; "rustc"; "--message-format=json"; "--lib"]
                    [("RUSTFLAGS", "-Awarnings")] "/other" "1.10.0")
             eq_refl eq_refl).
  - vm_compute. reflexivity.
Defined.

(** ** The two branches of [get_rustc_messages] *)

Section Dispatch.

Context {CommandInfo JsonObj : Type}.
Variable H : @Host CommandInfo JsonObj.

(** Clippy: one command, one process, then [return]. *)
Lemma get_rustc_messages_clippy ci (s : @State JsonObj) :
  rust_syntax_checking_method H = "clippy" ->
  CARGO_COMMANDS H "clippy" = Some ci ->
  let cmd := get_command H "clippy" ci (cwd s) (cwd s) None true in
  let s1 := set_msg_rel_path (Some (msg_rel_path cmd))
              (emit (CGetCommand "clippy" None) (emit CSettingsLoad s)) in
  get_rustc_messages H s =
  match run_and_wait H (command cmd) (env cmd) s1 with
  | (s2, Normal) => (s2, Return)
  | (s2, c) => (s2, c)
  end.
Proof.
  intros Hm Hci cmd s1. unfold get_rustc_messages. rewrite Hm, Hci.
  unfold check_all, seq, update, if_. simpl. fold cmd. fold s1.
  by destruct (run_and_wait H _ _ s1) as [s2 []].
Qed.

(** Any other known method: the loop over the targets of the file. *)
Lemma get_rustc_messages_targets ci (s : @State JsonObj) :
  String.eqb (rust_syntax_checking_method H) "clippy" = false ->
  CARGO_COMMANDS H (rust_syntax_checking_method H) = Some ci ->
  get_rustc_messages H s =
  for_each (determine_targets H (triggered_file_name s))
    (check_target H (rust_syntax_checking_method H) ci)
    (emit (CDetermineTargets (triggered_file_name s))
       (emit CSettingsLoad s)).
Proof.
  intros Hm Hci. unfold get_rustc_messages. rewrite Hm, Hci.
  unfold check_targets, seq, update, if_, pass. reflexivity.
Qed.

(** The loop, one iteration at a time. *)
Lemma for_each_check_target method ci t ts (s : @State JsonObj) :
  for_each (t :: ts) (check_target H method ci) s =
  match check_target H method ci t s with
  | (s1, Normal) => for_each ts (check_target H method ci) s1
  | (s1, Break) => (s1, Normal)
  | (s1, c) => (s1, c)
  end.
Proof. reflexivity. Qed.

(** The calls of the loop extend the log. *)
Lemma for_each_log method ci ts (s : @State JsonObj) :
  let out := for_each ts (check_target H method ci) s in
  log (fst out) = (log s ++ calls_since s (fst out))%list.
Proof.
  intros out.
  destruct (preserves_for_each (grows checker_call) (grows_refl _)
              (grows_trans _) ts _ (check_target_checks H method ci) s)
    as [_ _ _ _ (l & L & _)].
  fold out in L. by rewrite (calls_since_app _ _ _ L).
Qed.

(** When the loop ends normally with the flag down, every target has
    had its process, once and in order. *)
Lemma for_each_all_launched method ci ts (s : @State JsonObj) :
  let out := for_each ts (check_target H method ci) s in
  snd out = Normal ->
  this_view_found (fst out) = false ->
  launched (calls_since s (fst out)) = map (fun t => Some (fst t)) ts.
Proof.
  revert s. induction ts as [|t ts IH]; intros s out Hn Hf.
  - subst out. simpl. by rewrite calls_since_refl.
  - subst out. rewrite for_each_check_target in *.
    destruct (check_target_spec H method ci t s) as [(l & L & A) C].
    destruct (check_target H method ci t s) as [s1 c]. simpl in L, C.
    destruct c as [| | |e]; simpl in Hn, Hf; try discriminate.
    + specialize (IH s1 Hn Hf).
      pose proof (for_each_log method ci ts s1) as L2. simpl in L2.
      rewrite L in L2. rewrite <- app_assoc in L2.
      rewrite (calls_since_app _ _ _ L2), !launched_app, IH.
      simpl. by rewrite (launched_wait l A).
    + congruence.
Qed.

(** However the loop ends, the targets launched are the first ones of
    the list, each once. *)
Lemma for_each_launched_prefix method ci ts (s : @State JsonObj) :
  exists n,
    launched (calls_since s (fst (for_each ts (check_target H method ci) s))) =
    map (fun t => Some (fst t)) (take n ts).
Proof.
  revert s. induction ts as [|t ts IH]; intros s.
  - exists O. simpl. by rewrite calls_since_refl.
  - rewrite for_each_check_target.
    destruct (check_target_spec H method ci t s) as [(l & L & A) _].
    destruct (check_target H method ci t s) as [s1 c]. simpl in L.
    assert (One : launched (calls_since s s1) = [Some (fst t)]).
    { rewrite (calls_since_app _ _ _ L). simpl.
      by rewrite (launched_wait l A). }
    destruct c as [| | |e]; try (exists 1%nat; exact One).
    destruct (IH s1) as [n E]. exists (S n).
    pose proof (for_each_log method ci ts s1) as L2. simpl in L2.
    rewrite L in L2. rewrite <- app_assoc in L2.
    rewrite (calls_since_app _ _ _ L2), !launched_app, E.
    simpl. by rewrite (launched_wait l A).
Qed.

(** A loop which is not empty launches its first target first. *)
Lemma for_each_launched_first method ci t ts (s : @State JsonObj) :
  exists more,
    launched
      (calls_since s (fst (for_each (t :: ts) (check_target H method ci) s))) =
    Some (fst t) :: more.
Proof.
  rewrite for_each_check_target.
  destruct (check_target_spec H method ci t s) as [(l & L1 & _) _].
  destruct (check_target H method ci t s) as [s1 c]. simpl in L1.
  assert (E : exists l', log (fst (match c with
                | Normal => for_each ts (check_target H method ci) s1
                | Break => (s1, Normal)
                | _ => (s1, c)
                end)) = (log s1 ++ l')%list).
  { destruct c; try (exists []; simpl; by rewrite app_nil_r).
    eexists. apply for_each_log. }
  destruct E as (l' & E). rewrite L1 in E. rewrite <- !app_assoc in E.
  rewrite (calls_since_app _ _ _ E). simpl. eauto.
Qed.

(** After a target whose process was waited for, the next target is
    launched exactly when the flag is down. *)
Lemma next_target_iff method ci t t2 rest (s : @State JsonObj) :
  let body := check_target H method ci in
  let one := body t s in
  let all := for_each (t :: t2 :: rest) body s in
  (forall e, snd one <> Raise e) ->
  (this_view_found (fst one) = false <->
   exists more,
     launched (calls_since (fst one) (fst all)) = Some (fst t2) :: more).
Proof.
  intros body one all Hok. subst all one body.
  rewrite for_each_check_target.
  destruct (check_target_spec H method ci t s) as [_ C].
  destruct (check_target H method ci t s) as [s1 c].
  simpl in C, Hok |- *.
  destruct c as [| | |e]; [ | | done | by destruct (Hok e)].
  - split; [intros _ | done]. apply for_each_launched_first.
  - rewrite calls_since_refl, C. split; [done | ].
    intros [more E]. discriminate.
Qed.

(** When the flag is up after a target, the loop ends with it. *)
Lemma loop_stops_when_found method ci t rest (s : @State JsonObj) :
  let body := check_target H method ci in
  let one := body t s in
  (forall e, snd one <> Raise e) ->
  this_view_found (fst one) = true ->
  for_each (t :: rest) body s = (fst one, Normal) /\
  launched (calls_since s (fst one)) = [Some (fst t)].
Proof.
  intros body one Hok Hf. subst one body.
  rewrite for_each_check_target.
  destruct (check_target_spec H method ci t s) as [(l & L & A) C].
  destruct (check_target H method ci t s) as [s1 c]. simpl in *.
  rewrite (calls_since_app _ _ _ L). simpl. rewrite (launched_wait l A).
  destruct c as [| | |e]; [congruence | done | done | by destruct (Hok e)].
Qed.

End Dispatch.

(** ** Clippy *)



(** ** Step by step through the checker

    Whatever holds across each call made outside [on_json], across the
    two assignments of the loop and across [on_json] itself holds
    across the whole of [get_rustc_messages]. *)

Section Steps.

Context {CommandInfo JsonObj : Type}.
Variable H : @Host CommandInfo JsonObj.
Variable R : @State JsonObj -> @State JsonObj -> Prop.

Hypothesis R_refl : forall s, R s s.
Hypothesis R_trans : forall s1 s2 s3, R s1 s2 -> R s2 s3 -> R s1 s3.
Hypothesis R_call : forall s c, plain_call s c -> R s (emit c s).
Hypothesis R_rel_path : forall s v, R s (set_msg_rel_path v s).
Hypothesis R_target : forall s v, R s (set_current_target_src v s).
Hypothesis R_json : forall s obj, R s (fst (on_json H obj s)).

Lemma steps_emit (c : @Call JsonObj) :
  (forall s, plain_call s c) -> preserves R (update (emit c)).
Proof. intros Hc s. apply R_call, Hc. Qed.

Lemma steps_option (o : option exn) :
  preserves R (match o with Some e => raise e | None => pass end).
Proof. destruct o; intros s; apply R_refl. Qed.

Lemma steps_deliver ev : preserves R (deliver H ev).
Proof.
  destruct ev; intros s; simpl; try apply R_refl.
  - apply (R_call s (CPrint _)). exact I.
  - pose proof (R_json s obj) as J. unfold call.
    by destruct (on_json H obj s) as [s1 []].
Qed.

Lemma steps_proc_wait p : preserves R (proc_wait H p).
Proof.
  unfold proc_wait.
  apply preserves_seq; [exact R_trans | by apply steps_emit | ].
  apply preserves_seq; [exact R_trans | | apply steps_option].
  apply preserves_for_each; [exact R_refl | exact R_trans | ].
  apply steps_deliver.
Qed.

Lemma steps_run_and_wait argv penv : preserves R (run_and_wait H argv penv).
Proof.
  intros s. unfold run_and_wait. set (p := proc_script H _ _ _ _).
  unfold seq at 1, proc_run. unfold seq at 1, update at 1.
  set (s1 := emit _ s). assert (R1 : R s s1) by (by apply R_call).
  destruct (spawn p); unfold raise, pass; cbv beta iota; [exact R1 | ].
  eapply R_trans; [exact R1 | apply steps_proc_wait].
Qed.

Lemma steps_check_target method ci t :
  preserves R (check_target H method ci t).
Proof.
  intros s. rewrite check_target_eq. cbv zeta.
  set (s1 := set_current_target_src _ _).
  assert (R1 : R s s1).
  { subst s1. eapply R_trans; [ | apply R_target].
    eapply R_trans; [ | apply R_rel_path].
    by apply R_call. }
  pose proof (steps_run_and_wait
                (augment H method (snd t)
                   (get_command H method ci (cwd s) (cwd s)
                      (Some (join " " (snd t))) true))
                (env (get_command H method ci (cwd s) (cwd s)
                        (Some (join " " (snd t))) true)) s1) as R2.
  destruct (run_and_wait H _ _ s1) as [s2 c]. simpl in R2.
  destruct c; simpl; eapply R_trans; eauto.
Qed.

Lemma steps_for_each method ci ts :
  preserves R (for_each ts (check_target H method ci)).
Proof.
  apply preserves_for_each; [exact R_refl | exact R_trans | ].
  apply steps_check_target.
Qed.

Lemma steps_get_rustc_messages : preserves R (get_rustc_messages H).
Proof.
  intros s. unfold get_rustc_messages. unfold seq at 1, update at 1.
  set (s0 := emit CSettingsLoad s).
  assert (R0 : R s s0) by (by apply R_call).
  destruct (CARGO_COMMANDS H _) as [ci|]; [ | exact R0].
  eapply R_trans; [exact R0 | ]. revert s0 R0. intros s0 _.
  apply preserves_seq; [exact R_trans | | ]; clear s0.
  - apply preserves_if; [ | intros s0; apply R_refl].
    intros s0. unfold check_all.
    unfold seq at 1, update at 1. unfold seq at 1, update at 1.
    set (s1 := set_msg_rel_path _ _).
    assert (R1 : R s0 s1).
    { subst s1. eapply R_trans; [ | apply R_rel_path]. by apply R_call. }
    eapply R_trans; [exact R1 | ].
    apply preserves_seq; [exact R_trans | apply steps_run_and_wait | ].
    intros s2. apply R_refl.
  - intros s0. unfold check_targets. unfold seq, update.
    eapply R_trans; [ | apply steps_for_each].
    by apply R_call.
Qed.

End Steps.

(** ** The callbacks of one process *)

Section Callbacks.

Context {CommandInfo JsonObj : Type}.
Variable H : @Host CommandInfo JsonObj.

Lemma added_callback_calls rel src (evs : list (@ProcEvent JsonObj)) :
  added (callback_calls rel src evs) =
  map (fun obj => mkMessage rel obj src) (json_objs evs).
Proof.
  induction evs as [|ev evs IH]; [done | ].
  destruct ev; simpl; auto. unfold added in *. simpl. by rewrite IH.
Qed.

Lemma printed_callback_calls rel src (evs : list (@ProcEvent JsonObj)) :
  printed (callback_calls rel src evs) =
  map (fun line => "Rust Error: " ++ line) (error_lines evs).
Proof.
  induction evs as [|ev evs IH]; [done | ].
  destruct ev; simpl; auto. unfold printed in *. simpl. by rewrite IH.
Qed.

(** The callbacks only add to the log and to the store, and only raise
    the found flag. *)
Lemma for_each_deliver_trace evs (s : @State JsonObj) :
  let out := fst (for_each evs (deliver H) s) in
  let calls := callback_calls (cur_msg_rel_path s) (current_target_src s)
                 evs in
  log out = (log s ++ calls)%list /\
  store out = (store s ++ added calls)%list /\
  cur_msg_rel_path out = cur_msg_rel_path s /\
  current_target_src out = current_target_src s /\
  cwd out = cwd s /\
  triggered_file_name out = triggered_file_name s /\
  view_status out = view_status s /\
  (json_objs evs = [] -> this_view_found out = this_view_found s).
Proof.
  revert s. induction evs as [|ev evs IH]; intros s.
  - simpl. rewrite !app_nil_r. repeat split; auto.
  - cbn [for_each].
    pose proof (deliver_normal H ev s) as N.
    destruct (deliver H ev s) as [s1 c] eqn:D. simpl in N. subst c.
    assert (S1 : log s1 =
                 (log s ++ callback_calls (cur_msg_rel_path s)
                             (current_target_src s) [ev])%list /\
                 store s1 =
                 (store s ++ added (callback_calls (cur_msg_rel_path s)
                                      (current_target_src s) [ev]))%list /\
                 cur_msg_rel_path s1 = cur_msg_rel_path s /\
                 current_target_src s1 = current_target_src s /\
                 cwd s1 = cwd s /\
                 triggered_file_name s1 = triggered_file_name s /\
                 view_status s1 = view_status s /\
                 (json_objs [ev] = [] ->
                  this_view_found s1 = this_view_found s)).
    { destruct ev;
        unfold deliver, call, on_begin, on_data, on_error, on_finished,
          on_terminated, print, on_json, seq, add_rust_messages, update,
          if_, pass in D;
        simpl in D.
      1, 2, 5, 6: injection D as <-; simpl; rewrite ?app_nil_r;
        repeat split; auto.
      - injection D as <-. simpl. rewrite app_nil_r. repeat split; auto.
      - destruct (has_message_for_path H _ _); injection D as <-;
          simpl; repeat split; auto; discriminate. }
    destruct S1 as (L1 & T1 & P1 & C1 & W1 & F1 & V1 & B1).
    destruct (IH s1) as (L & T & P & C & W & F & V & B).
    cbv zeta. rewrite L, T, P, C, W, F, V, L1, T1, P1, C1, W1, F1, V1.
    change (ev :: evs) with ([ev] ++ evs)%list.
    unfold callback_calls, added, json_objs in *.
    rewrite !omap_app, <- !app_assoc.
    repeat split; auto.
    intros E. apply app_eq_nil in E as [E1 E2].
    rewrite (B E2). auto.
Qed.

(** Launching a process and waiting for it, as one equation. *)
Lemma run_and_wait_eq argv penv (s : @State JsonObj) :
  let p := proc_script H (length (proc_runs (log s))) argv (cwd s) penv in
  let s1 := emit (CProcRun argv (cwd s) penv (current_target_src s)) s in
  run_and_wait H argv penv s =
  match spawn p with
  | Some e => (s1, Raise e)
  | None =>
      (fst (for_each (events p) (deliver H) (emit CProcWait s1)),
       match exit p with
       | Some e => Raise e
       | None => Normal
       end)
  end.
Proof.
  intros p s1. unfold run_and_wait. fold p.
  unfold seq at 1, proc_run. unfold seq at 1, update at 1. fold s1.
  destruct (spawn p) as [e|]; unfold raise, pass; cbv beta iota; [done | ].
  unfold proc_wait, seq, update.
  pose proof (for_each_deliver_normal H (events p) (emit CProcWait s1)) as N.
  destruct (for_each (events p) (deliver H) (emit CProcWait s1)) as [s3 c].
  simpl in N. subst c. by destruct (exit p).
Qed.

(** One iteration of the loop, call by call. *)
Lemma check_target_trace method ci t (s : @State JsonObj) :
  let target := Some (join " " (snd t)) in
  let cmd := get_command H method ci (cwd s) (cwd s) target true in
  let argv := augment H method (snd t) cmd in
  let p := proc_script H (length (proc_runs (log s))) argv (cwd s)
                       (env cmd) in
  let rel := Some (msg_rel_path cmd) in
  let src := Some (fst t) in
  let out := check_target H method ci t s in
  let after := match spawn p with
               | Some _ => []
               | None => CProcWait :: callback_calls rel src (events p)
               end in
  log (fst out) =
    (log s ++ CGetCommand method target ::
              CProcRun argv (cwd s) (env cmd) src :: after)%list /\
  store (fst out) = (store s ++ added after)%list /\
  view_status (fst out) = view_status s /\
  (json_objs (events p) = [] \/ spawn p <> None ->
   this_view_found (fst out) = this_view_found s) /\
  snd out = match spawn p, exit p with
            | Some e, _ => Raise e
            | None, Some e => Raise e
            | None, None =>
                if this_view_found (fst out) then Break else Normal
            end.
Proof.
  intros target cmd argv p rel src out after. subst out.
  rewrite check_target_eq. fold target cmd argv. cbv zeta.
  set (s1 := set_current_target_src _ _).
  rewrite run_and_wait_eq. cbv zeta.
  assert (Hp : proc_script H (length (proc_runs (log s1))) argv (cwd s1)
                 (env cmd) = p).
  { subst s1 p. simpl. by rewrite proc_runs_app, app_nil_r. }
  rewrite Hp.
  change (cwd s1) with (cwd s). change (current_target_src s1) with src.
  set (s2 := emit _ s1).
  assert (L2 : log s2 = (log s ++ [CGetCommand method target;
                                   CProcRun argv (cwd s) (env cmd) src])%list).
  { subst s2 s1. simpl. by rewrite <- app_assoc. }
  subst after. destruct (spawn p) as [e|].
  - cbn [fst snd]. rewrite L2. simpl. rewrite app_nil_r.
    repeat split; auto.
  - destruct (for_each_deliver_trace (events p) (emit CProcWait s2))
      as (L & T & _ & _ & _ & _ & V & B).
    change (cur_msg_rel_path (emit CProcWait s2)) with rel in L, T.
    change (current_target_src (emit CProcWait s2)) with src in L, T.
    set (s3 := fst (for_each (events p) (deliver H) (emit CProcWait s2)))
      in *.
    assert (L3 : log s3 =
                 (log s ++ CGetCommand method target ::
                    CProcRun argv (cwd s) (env cmd) src ::
                    CProcWait :: callback_calls rel src (events p))%list).
    { rewrite L.
      change (log (emit CProcWait s2)) with (log s2 ++ [CProcWait])%list.
      rewrite L2. by rewrite <- !app_assoc. }
    assert (F3 : json_objs (events p) = [] \/ None <> (None : option exn) ->
                 this_view_found s3 = this_view_found s).
    { intros [E | E]; [ | done]. by rewrite (B E). }
    assert (T3 : store s3 =
                 (store s ++ added (CProcWait ::
                                      callback_calls rel src (events p)))%list)
      by exact T.
    assert (V3 : view_status s3 = view_status s) by exact V.
    clearbody s3.
    destruct (exit p); [ | destruct (this_view_found s3) eqn:F ];
      cbn [fst snd]; rewrite ?F; repeat split; auto.
Qed.

End Callbacks.

(** ** What one process contributes *)

(** X1: when the process of a target starts, every JSON object it
    emits is added to the messages once, in the order of arrival, with
    the base path of the target's command and the source file of the
    target; nothing else is added, whether or not the wait then
    raises. *)
Theorem json_forwarded_with_target {CommandInfo JsonObj : Type}
    (H : @Host CommandInfo JsonObj) (method : string) (ci : CommandInfo)
    (t : string * list string) (s : @State JsonObj) :
  let target := Some (join " " (snd t)) in
  let cmd := get_command H method ci (cwd s) (cwd s) target true in
  let p := proc_script H (length (proc_runs (log s)))
             (augment H method (snd t) cmd) (cwd s) (env cmd) in
  let out := fst (check_target H method ci t s) in
  let forwarded :=
    map (fun obj => mkMessage (Some (msg_rel_path cmd)) obj (Some (fst t)))
        (json_objs (events p)) in
  spawn p = None ->
  added (calls_since s out) = forwarded /\
  store out = (store s ++ forwarded)%list.
Proof.
  intros target cmd p out forwarded Hs.
  destruct (check_target_trace H method ci t s) as (L & T & _).
  fold target cmd p in L, T. fold out in L, T. rewrite Hs in L, T.
  rewrite (calls_since_app _ _ _ L), T.
  change (added (CGetCommand method target :: _ :: CProcWait :: ?l))
    with (added l).
  change (added (CProcWait :: ?l)) with (added l).
  by rewrite added_callback_calls.
Qed.

Lemma library_messages_carry_target :
  let H := Demo.host 4000 true (Some "/proj") "check" true
                     Corner.scripts_noisy in
  store (fst (check_target H "check" "check" ("src/lib.rs", ["--lib"])
                Demo.busy)) =
  [mkMessage (Some "/proj") "old" (Some "src/lib.rs");
   mkMessage (Some "/proj") "other" (Some "src/lib.rs")].
Proof.
  intros H.
  exact (proj2 (json_forwarded_with_target H "check" "check"
                  ("src/lib.rs", ["--lib"]) Demo.busy eq_refl)).
Defined.

(** X2: the lines which the process of a target writes to its error
    stream are printed, each after "Rust Error: ", in order, and that is
    all [on_error] does: a process which emits no JSON object leaves the
    messages and the found flag as they were. *)
Theorem error_lines_only_printed {CommandInfo JsonObj : Type}
    (H : @Host CommandInfo JsonObj) (method : string) (ci : CommandInfo)
    (t : string * list string) (s : @State JsonObj) :
  let target := Some (join " " (snd t)) in
  let cmd := get_command H method ci (cwd s) (cwd s) target true in
  let p := proc_script H (length (proc_runs (log s)))
             (augment H method (snd t) cmd) (cwd s) (env cmd) in
  let out := fst (check_target H method ci t s) in
  spawn p = None ->
  printed (calls_since s out) =
    map (fun line => "Rust Error: " ++ line) (error_lines (events p)) /\
  (json_objs (events p) = [] ->
   store out = store s /\ this_view_found out = this_view_found s).
Proof.
  intros target cmd p out Hs.
  destruct (check_target_trace H method ci t s) as (L & T & _ & F & _).
  fold target cmd p in L, T, F. fold out in L, T, F. rewrite Hs in L, T.
  split.
  - rewrite (calls_since_app _ _ _ L).
    change (printed (CGetCommand method target :: _ :: CProcWait :: ?l))
      with (printed l).
    apply printed_callback_calls.
  - intros E. split; [ | by apply F; left].
    rewrite T. change (added (CProcWait :: ?l)) with (added l).
    rewrite added_callback_calls, E. apply app_nil_r.
Qed.

Lemma noisy_compiler_is_printed :
  let H := Demo.host 4000 true (Some "/proj") "check" true
                     Corner.scripts_noisy in
  printed
    (calls_since Demo.busy
       (fst (check_target H "check" "check" ("src/lib.rs", ["--lib"])
               Demo.busy))) =
  ["Rust Error: warning: unused manifest key";
   "Rust Error: error: could not compile"].
Proof.
  intros H.
  exact (proj1 (error_lines_only_printed H "check" "check"
                  ("src/lib.rs", ["--lib"]) Demo.busy eq_refl)).
Defined.

(** X3: when the process of a target cannot be started, the exception
    of [p.run] ends the loop: the process is not waited for, no
    callback runs, the messages and the found flag are untouched, and
    no later target is tried. *)
Theorem unstartable_process_ends_loop {CommandInfo JsonObj : Type}
    (H : @Host CommandInfo JsonObj) (method : string) (ci : CommandInfo)
    (t : string * list string) (rest : list (string * list string))
    (s : @State JsonObj) (e : exn) :
  let target := Some (join " " (snd t)) in
  let cmd := get_command H method ci (cwd s) (cwd s) target true in
  let argv := augment H method (snd t) cmd in
  let p := proc_script H (length (proc_runs (log s))) argv (cwd s)
                       (env cmd) in
  let out := for_each (t :: rest) (check_target H method ci) s in
  spawn p = Some e ->
  snd out = Raise e /\
  calls_since s (fst out) =
    [CGetCommand method target;
     CProcRun argv (cwd s) (env cmd) (Some (fst t))] /\
  store (fst out) = store s /\
  this_view_found (fst out) = this_view_found s.
Proof.
  intros target cmd argv p out Hs. subst out.
  rewrite for_each_check_target.
  destruct (check_target_trace H method ci t s) as (L & T & _ & F & C).
  fold target cmd argv p in L, T, F, C. rewrite Hs in L, T, C.
  destruct (check_target H method ci t s) as [s1 c]. simpl in L, T, F, C.
  subst c. simpl. repeat split.
  - by apply calls_since_app.
  - rewrite T. apply app_nil_r.
  - apply F. right. by rewrite Hs.
Qed.

Lemma broken_cargo_ends_loop :
  let H := Demo.host 4000 true (Some "/proj") "check" true
                     Demo.scripts_broken in
  snd (for_each [("src/main.rs", ["--bin"; "app"]); ("src/lib.rs", ["--lib"])]
         (check_target H "check" "check") Demo.busy) =
  Raise (OSError "No such file or directory").
Proof.
  intros H.
  exact (proj1 (unstartable_process_ends_loop H "check" "check"
                  ("src/main.rs", ["--bin"; "app"])
                  [("src/lib.rs", ["--lib"])] Demo.busy
                  (OSError "No such file or directory") eq_refl)).
Defined.

(** ** The outcomes of a run *)

Section Outcomes.

Context {CommandInfo JsonObj : Type}.
Variable H : @Host CommandInfo JsonObj.

(** A run which found its manifest: what [get_rustc_messages] starts
    from, what it may do, and how [run] is left. *)
Lemma run_found_trace (s : @State JsonObj) dir :
  find_cargo_manifest H (abspath H (file_name H)) = Some dir ->
  let mid := get_rustc_messages H (entered H s) in
  exists l,
    log (fst mid) =
      (log s ++ CSetStatus status_key status_running ::
                CClearMessages :: l)%list /\
    forallb checker_call l = true /\
    store (fst mid) = added l /\
    view_status (fst mid) =
      <[status_key := status_running]> (view_status s) /\
    run H s = leave (fst mid) (match snd mid with
                               | Return => Normal
                               | c => c
                               end).
Proof.
  intros Hdir mid.
  destruct (get_rustc_messages_checks H (entered H s))
    as [_ _ V _ (l & L & A & S)].
  fold mid in V, L, S. exists l. repeat split; auto.
  - rewrite L, entered_eq. simpl. by rewrite <- !app_assoc.
  - rewrite (run_found H s dir Hdir). cbv zeta. unfold call. fold mid.
    by destruct mid as [s2 []].
Qed.

(** The state in which [get_rustc_messages] is entered. *)
Lemma entered_spec (s : @State JsonObj) :
  log (entered H s) =
    (log s ++ [CSetStatus status_key status_running; CClearMessages])%list /\
  store (entered H s) = [] /\
  triggered_file_name (entered H s) = Some (abspath H (file_name H)) /\
  cwd (entered H s) = find_cargo_manifest H (abspath H (file_name H)) /\
  this_view_found (entered H s) = false.
Proof.
  rewrite entered_eq. cbn [log store triggered_file_name cwd this_view_found
    emit set_store set_this_view_found set_view_status set_cwd
    set_triggered_file_name].
  by rewrite <- app_assoc.
Qed.

(** How [run] is left, field by field. *)
Lemma leave_spec (s2 : @State JsonObj) c :
  let out := leave s2 c in
  log (fst out) =
    (log s2 ++ match c with
               | Normal => [CMessagesFinished; CEraseStatus status_key]
               | _ => [CEraseStatus status_key]
               end)%list /\
  store (fst out) = store s2 /\
  view_status (fst out) = delete status_key (view_status s2) /\
  snd out = match c with
            | Raise ProcessTerminatedError => Return
            | c => c
            end.
Proof.
  destruct c as [| | |[]];
    cbn [leave fst snd erase_status messages_finished update emit
         set_view_status log store view_status];
    repeat split; auto.
  by rewrite <- app_assoc.
Qed.

(** A method which [CARGO_COMMANDS] does not know. *)
Lemma get_rustc_messages_unknown (s : @State JsonObj) :
  CARGO_COMMANDS H (rust_syntax_checking_method H) = None ->
  get_rustc_messages H s =
  (emit CSettingsLoad s, Raise (KeyError (rust_syntax_checking_method H))).
Proof.
  intros Hnone. unfold get_rustc_messages, seq, update. by rewrite Hnone.
Qed.

End Outcomes.

(** X4: when the method of the settings is not a key of
    [CARGO_COMMANDS], a run which found its manifest shows its status,
    clears the messages, loads the settings and is left by the
    [KeyError]: no target is asked for, no process is launched,
    [messages_finished] is not called, and the status is erased. *)
Theorem unknown_method_raises {CommandInfo JsonObj : Type}
    (H : @Host CommandInfo JsonObj) (s : @State JsonObj) (dir : string) :
  find_cargo_manifest H (abspath H (file_name H)) = Some dir ->
  CARGO_COMMANDS H (rust_syntax_checking_method H) = None ->
  let out := run H s in
  snd out = Raise (KeyError (rust_syntax_checking_method H)) /\
  calls_since s (fst out) =
    [CSetStatus status_key status_running; CClearMessages; CSettingsLoad;
     CEraseStatus status_key] /\
  store (fst out) = [] /\
  view_status (fst out) !! status_key = None.
Proof.
  intros Hdir Hnone out.
  destruct (run_found_trace H s dir Hdir) as (l & _ & _ & _ & _ & R).
  rewrite (get_rustc_messages_unknown H _ Hnone) in R. cbn [fst snd] in R.
  destruct (entered_spec H s) as (EL & ES & _).
  destruct (leave_spec (emit CSettingsLoad (entered H s))
              (Raise (KeyError (rust_syntax_checking_method H))))
    as (LL & LS & LV & LC).
  cbv zeta in LL, LS, LV, LC.
  subst out. rewrite R, LC, LS, LV.
  change (store (emit CSettingsLoad (entered H s))) with (store (entered H s)).
  split; [reflexivity | split; [ | split; [exact ES | ]]].
  - apply calls_since_app. rewrite LL.
    change (log (emit CSettingsLoad (entered H s)))
      with (log (entered H s) ++ [CSettingsLoad])%list.
    rewrite EL. by rewrite <- !app_assoc.
  - apply lookup_delete_eq.
Qed.

Lemma misspelt_method :
  let H := Demo.host 4000 true (Some "/proj") "chekc" true
                     Demo.scripts_quiet in
  snd (run H Demo.busy) = Raise (KeyError "chekc") /\
  store (fst (run H Demo.busy)) = [].
Proof.
  intros H.
  destruct (unknown_method_raises H Demo.busy "/proj" eq_refl eq_refl)
    as (R & _ & S & _).
  split; [exact R | exact S].
Defined.

(** X5: when [get_rustc_messages] is left by an exception other than
    [ProcessTerminatedError], the exception leaves [run] as well:
    [messages_finished] is not called, the messages added so far stay in
    the store, and the status has been erased. *)
Theorem failed_run_not_finalized {CommandInfo JsonObj : Type}
    (H : @Host CommandInfo JsonObj) (s : @State JsonObj) (dir : string)
    (e : exn) :
  find_cargo_manifest H (abspath H (file_name H)) = Some dir ->
  e <> ProcessTerminatedError ->
  snd (get_rustc_messages H (entered H s)) = Raise e ->
  let out := run H s in
  let calls := calls_since s (fst out) in
  snd out = Raise e /\
  List.filter is_finished calls = [] /\
  store (fst out) = added calls /\
  last calls = Some (CEraseStatus status_key) /\
  view_status (fst out) !! status_key = None.
Proof.
  intros Hdir Hne Hraise out calls.
  destruct (run_found_trace H s dir Hdir) as (l & L & A & S & V & R).
  rewrite Hraise in R.
  assert (E : leave (fst (get_rustc_messages H (entered H s))) (Raise e) =
              (fst (erase_status status_key
                      (fst (get_rustc_messages H (entered H s)))), Raise e))
    by (by destruct e).
  rewrite E in R. clear E.
  assert (C : calls = (CSetStatus status_key status_running ::
                       CClearMessages :: l ++ [CEraseStatus status_key])%list).
  { subst calls out. apply calls_since_app. rewrite R. simpl. rewrite L.
    by rewrite <- !app_assoc. }
  subst out. rewrite C, R. simpl. repeat split.
  - rewrite List.filter_app, (finished_checker l A). reflexivity.
  - rewrite S. unfold added. rewrite omap_app. simpl. by rewrite app_nil_r.
  - rewrite !app_comm_cons. apply last_snoc.
  - apply lookup_delete_eq.
Qed.

Lemma cargo_not_installed :
  let H := Demo.host 4000 true (Some "/proj") "no-trans" true
                     Demo.scripts_broken in
  snd (run H Demo.busy) = Raise (OSError "No such file or directory") /\
  List.filter is_finished (calls_since Demo.busy (fst (run H Demo.busy))) = [].
Proof.
  intros H.
  destruct (failed_run_not_finalized H Demo.busy "/proj"
              (OSError "No such file or directory") eq_refl
              ltac:(discriminate) eq_refl) as (R & F & _).
  split; [exact R | exact F].
Defined.

(** X6: when the detector finds no target for the saved file, a run
    with a method other than clippy launches no process and still
    completes: the messages are cleared, [messages_finished] is called
    on the empty store, and the status is erased. *)
Theorem no_targets_still_finishes {CommandInfo JsonObj : Type}
    (H : @Host CommandInfo JsonObj) (s : @State JsonObj) (dir : string)
    (ci : CommandInfo) :
  let name := abspath H (file_name H) in
  find_cargo_manifest H name = Some dir ->
  String.eqb (rust_syntax_checking_method H) "clippy" = false ->
  CARGO_COMMANDS H (rust_syntax_checking_method H) = Some ci ->
  determine_targets H (Some name) = [] ->
  let out := run H s in
  snd out = Normal /\
  calls_since s (fst out) =
    [CSetStatus status_key status_running; CClearMessages; CSettingsLoad;
     CDetermineTargets (Some name); CMessagesFinished;
     CEraseStatus status_key] /\
  store (fst out) = [].
Proof.
  intros name Hdir Hm Hci Hts out.
  destruct (run_found_trace H s dir Hdir) as (l & _ & _ & _ & _ & R).
  destruct (entered_spec H s) as (EL & ES & EF & _).
  rewrite (get_rustc_messages_targets H ci _ Hm Hci) in R.
  rewrite EF in R. fold name in R. rewrite Hts in R.
  cbn [for_each fst snd] in R.
  set (s1 := emit (CDetermineTargets (Some name))
               (emit CSettingsLoad (entered H s))) in R.
  destruct (leave_spec s1 Normal) as (LL & LS & _ & LC).
  cbv zeta in LL, LS, LC.
  subst out. rewrite R, LC, LS.
  split; [reflexivity | split; [ | exact ES]].
  apply calls_since_app. rewrite LL.
  change (log s1)
    with ((log (entered H s) ++ [CSettingsLoad]) ++
          [CDetermineTargets (Some name)])%list.
  rewrite EL. by rewrite <- !app_assoc.
Qed.

Lemma file_outside_every_target :
  let H := Corner.without_targets
             (Demo.host 4000 true (Some "/proj") "check" true
                        Demo.scripts_hit) in
  snd (run H Demo.busy) = Normal /\ store (fst (run H Demo.busy)) = [].
Proof.
  intros H.
  destruct (no_targets_still_finishes H Demo.busy "/proj" "check"
              eq_refl eq_refl eq_refl eq_refl) as (R & _ & S).
  split; [exact R | exact S].
Defined.

(** X7: when [get_rustc_messages] completes, [run] completes too, and
    its calls are these: the status is shown, the messages are cleared,
    then come the calls of the checker, then [messages_finished] once,
    then the status is erased; the store holds what the checker
    added. *)
Theorem completed_run_finalized_once {CommandInfo JsonObj : Type}
    (H : @Host CommandInfo JsonObj) (s : @State JsonObj) (dir : string) :
  find_cargo_manifest H (abspath H (file_name H)) = Some dir ->
  snd (get_rustc_messages H (entered H s)) = Normal \/
  snd (get_rustc_messages H (entered H s)) = Return ->
  let out := run H s in
  snd out = Normal /\
  exists middle,
    calls_since s (fst out) =
      (CSetStatus status_key status_running :: CClearMessages ::
       middle ++ [CMessagesFinished; CEraseStatus status_key])%list /\
    forallb checker_call middle = true /\
    List.filter is_finished middle = [] /\
    store (fst out) = added middle.
Proof.
  intros Hdir Hc out.
  destruct (run_found_trace H s dir Hdir) as (l & L & A & S & _ & R).
  assert (E : match snd (get_rustc_messages H (entered H s)) with
              | Return => Normal
              | c => c
              end = Normal) by (by destruct Hc as [-> | ->]).
  rewrite E in R.
  destruct (leave_spec (fst (get_rustc_messages H (entered H s))) Normal)
    as (LL & LS & _ & LC).
  cbv zeta in LL, LS, LC. subst out. rewrite R, LC, LS.
  split; [reflexivity | ]. exists l. repeat split; auto.
  - apply calls_since_app. rewrite LL, L. by rewrite <- !app_assoc.
  - by apply finished_checker.
Qed.

Lemma quiet_package_is_finalized :
  let H := Demo.host 4000 true (Some "/proj") "check" true
                     Demo.scripts_quiet in
  snd (run H Demo.busy) = Normal /\
  List.filter is_finished (calls_since Demo.busy (fst (run H Demo.busy))) =
  [CMessagesFinished].
Proof.
  intros H.
  destruct (completed_run_finalized_once H Demo.busy "/proj" eq_refl
              (or_introl eq_refl)) as (R & middle & C & _ & F & _).
  split; [exact R | ].
  rewrite C. simpl. rewrite List.filter_app, F. reflexivity.
Defined.

(** X8: a run changes the status line of the view in one way only:
    once a manifest is found the key [rust-check] is gone when [run] is
    left, and without a manifest the status is what it was; the status
    shown under any other key is never touched. *)
Theorem status_after_run {CommandInfo JsonObj : Type}
    (H : @Host CommandInfo JsonObj) (s : @State JsonObj) :
  let out := fst (run H s) in
  view_status out =
    match find_cargo_manifest H (abspath H (file_name H)) with
    | Some _ => delete status_key (view_status s)
    | None => view_status s
    end /\
  (forall key, key <> status_key ->
     view_status out !! key = view_status s !! key) /\
  (view_status s !! status_key = None ->
   view_status out !! status_key = None).
Proof.
  intros out.
  assert (E : view_status out =
              match find_cargo_manifest H (abspath H (file_name H)) with
              | Some _ => delete status_key (view_status s)
              | None => view_status s
              end).
  { subst out.
    destruct (find_cargo_manifest H (abspath H (file_name H)))
      as [dir|] eqn:Hdir.
    - destruct (run_found_trace H s dir Hdir) as (l & _ & _ & _ & V & R).
      rewrite R.
      destruct (leave_spec (fst (get_rustc_messages H (entered H s)))
                  (match snd (get_rustc_messages H (entered H s)) with
                   | Return => Normal
                   | c => c
                   end)) as (_ & _ & LV & _).
      cbv zeta in LV. rewrite LV, V. apply delete_insert_eq.
    - by destruct (no_manifest_run H s Hdir) as (_ & _ & _ & _ & V). }
  split; [exact E | ]. rewrite E.
  destruct (find_cargo_manifest H (abspath H (file_name H))); split; auto.
  - intros key Hk. by apply lookup_delete_ne.
  - intros _. apply lookup_delete_eq.
Qed.

Lemma status_of_other_plugins :
  let H := Demo.host 4000 true (Some "/proj") "check" true Demo.scripts_hit in
  view_status (fst (run H Demo.busy)) !! "git-branch" =
  view_status Demo.busy !! "git-branch".
Proof.
  intros H.
  destruct (status_after_run H Demo.busy) as (_ & F & _).
  apply F. discriminate.
Defined.

(** X9: however a run which found its manifest is left, the messages
    are cleared once, as its second call, and the store then holds
    exactly the messages added during this run, in the order they were
    added: nothing recorded before the run is left in it. *)
Theorem store_holds_this_run {CommandInfo JsonObj : Type}
    (H : @Host CommandInfo JsonObj) (s : @State JsonObj) (dir : string) :
  find_cargo_manifest H (abspath H (file_name H)) = Some dir ->
  let out := fst (run H s) in
  let calls := calls_since s out in
  log out = (log s ++ calls)%list /\
  store out = added calls /\
  exists rest,
    calls = CSetStatus status_key status_running :: CClearMessages :: rest /\
    List.filter is_clear rest = [].
Proof.
  intros Hdir out calls.
  destruct (run_found_trace H s dir Hdir) as (l & L & A & S & _ & R).
  set (c := match snd (get_rustc_messages H (entered H s)) with
            | Return => Normal
            | c => c
            end) in R.
  destruct (leave_spec (fst (get_rustc_messages H (entered H s))) c)
    as (LL & LS & _ & _).
  cbv zeta in LL, LS. rewrite <- R in LL, LS. fold out in LL, LS.
  set (tail := match c with
               | Normal => [CMessagesFinished; CEraseStatus status_key]
               | _ => [CEraseStatus status_key]
               end : list (@Call JsonObj)) in LL.
  assert (T : added tail = [] /\ List.filter is_clear tail = [])
    by (subst tail; by destruct c).
  destruct T as (TA & TC).
  assert (C : calls = (CSetStatus status_key status_running ::
                       CClearMessages :: l ++ tail)%list).
  { subst calls. apply calls_since_app. rewrite LL, L.
    by rewrite <- !app_assoc. }
  split; [ | split].
  - rewrite C, LL, L. by rewrite <- !app_assoc.
  - rewrite LS, S, C. unfold added in *. simpl.
    by rewrite omap_app, TA, app_nil_r.
  - exists (l ++ tail)%list. split; [exact C | ].
    rewrite List.filter_app, TC, app_nil_r.
    apply (filter_none checker_call); [by intros [] | exact A].
Qed.

Lemma old_messages_are_gone :
  let H := Demo.host 4000 true (Some "/proj") "check" true
                     Demo.scripts_killed in
  store (fst (run H Demo.busy)) =
  [mkMessage (Some "/proj") "other" (Some "src/main.rs");
   mkMessage (Some "/proj") "late" (Some "src/lib.rs")].
Proof.
  intros H.
  destruct (store_holds_this_run H Demo.busy "/proj" eq_refl) as (_ & S & _).
  rewrite S. vm_compute. reflexivity.
Defined.

(** X10: [get_rustc_messages] only ever adds: it leaves the status line,
    the file and the directory of the thread alone, clears nothing,
    never calls [messages_finished], and the store it leaves is the one
    it found followed by the messages it added. *)
Theorem checker_only_adds {CommandInfo JsonObj : Type}
    (H : @Host CommandInfo JsonObj) (s : @State JsonObj) :
  let out := fst (get_rustc_messages H s) in
  let calls := calls_since s out in
  log out = (log s ++ calls)%list /\
  store out = (store s ++ added calls)%list /\
  view_status out = view_status s /\
  triggered_file_name out = triggered_file_name s /\
  cwd out = cwd s /\
  List.filter is_clear calls = [] /\
  List.filter is_finished calls = [] /\
  (forall key value, CSetStatus key value ∉ calls) /\
  (forall key, CEraseStatus key ∉ calls).
Proof.
  intros out calls.
  destruct (get_rustc_messages_checks H s) as [F C V _ (l & L & A & S)].
  fold out in F, C, V, L, S.
  assert (E : calls = l) by (by apply calls_since_app).
  rewrite E. repeat split; auto.
  - apply (filter_none checker_call); [by intros [] | exact A].
  - by apply finished_checker.
  - intros key value Hin. rewrite forallb_forall in A.
    apply list_elem_of_In in Hin. by apply A in Hin.
  - intros key Hin. rewrite forallb_forall in A.
    apply list_elem_of_In in Hin. by apply A in Hin.
Qed.

(** ** Where the processes run *)

Section Directory.

Context {CommandInfo JsonObj : Type}.
Variable H : @Host CommandInfo JsonObj.

Lemma stays_put_refl (s : @State JsonObj) : stays_put s s.
Proof.
  repeat split. exists []. rewrite app_nil_r. repeat split; constructor.
Qed.

Lemma stays_put_trans (s1 s2 s3 : @State JsonObj) :
  stays_put s1 s2 -> stays_put s2 s3 -> stays_put s1 s3.
Proof.
  intros (C1 & F1 & l1 & L1 & D1 & A1) (C2 & F2 & l2 & L2 & D2 & A2).
  rewrite C1 in D2. rewrite F1 in A2.
  repeat split; try congruence.
  exists (l1 ++ l2)%list. rewrite L2, L1, <- app_assoc.
  unfold launch_dirs, asked_files in *. rewrite !omap_app.
  repeat split; auto; by apply Forall_app.
Qed.

Lemma stays_put_call (s : @State JsonObj) c :
  plain_call s c -> stays_put s (emit c s).
Proof.
  intros Hc. repeat split. exists [c]. split; [reflexivity | ].
  destruct c; simpl in Hc |- *; try done;
    split; repeat constructor; intuition congruence.
Qed.

Lemma stays_put_json s obj : stays_put s (fst (on_json H obj s)).
Proof.
  unfold on_json, seq, add_rust_messages, update, if_. simpl.
  destruct (has_message_for_path H _ _); simpl; repeat split;
    exists [CAddRustMessages
              (mkMessage (cur_msg_rel_path s) obj (current_target_src s))];
    repeat split; constructor.
Qed.

Lemma get_rustc_messages_stays_put s :
  stays_put s (fst (get_rustc_messages H s)).
Proof.
  apply (steps_get_rustc_messages H stays_put).
  - exact stays_put_refl.
  - exact stays_put_trans.
  - exact stays_put_call.
  - intros s0 v. repeat split. exists []. simpl.
    rewrite app_nil_r. repeat split; constructor.
  - intros s0 v. repeat split. exists []. simpl.
    rewrite app_nil_r. repeat split; constructor.
  - exact stays_put_json.
Qed.

End Directory.

(** X11: in a run which found its manifest every process is launched
    in the directory of the manifest, and whenever the targets are
    asked for it is for the absolute path of the saved file. *)
Theorem processes_run_beside_manifest {CommandInfo JsonObj : Type}
    (H : @Host CommandInfo JsonObj) (s : @State JsonObj) (dir : string) :
  let name := abspath H (file_name H) in
  find_cargo_manifest H name = Some dir ->
  let calls := calls_since s (fst (run H s)) in
  Forall (eq (Some dir)) (launch_dirs calls) /\
  Forall (eq (Some name)) (asked_files calls).
Proof.
  intros name Hdir calls.
  destruct (run_found_trace H s dir Hdir) as (l & _ & _ & _ & _ & R).
  destruct (entered_spec H s) as (EL & _ & EF & EC & _).
  destruct (get_rustc_messages_stays_put H (entered H s))
    as (_ & _ & l' & L' & D & A).
  rewrite EC in D. fold name in D. rewrite Hdir in D.
  rewrite EF in A. fold name in A.
  set (c := match snd (get_rustc_messages H (entered H s)) with
            | Return => Normal
            | c => c
            end) in R.
  destruct (leave_spec (fst (get_rustc_messages H (entered H s))) c)
    as (LL & _).
  cbv zeta in LL. rewrite <- R in LL.
  set (tail := match c with
               | Normal => [CMessagesFinished; CEraseStatus status_key]
               | _ => [CEraseStatus status_key]
               end : list (@Call JsonObj)) in LL.
  assert (T : launch_dirs tail = [] /\ asked_files tail = [])
    by (subst tail; by destruct c).
  destruct T as (TD & TA).
  assert (C : calls = ([CSetStatus status_key status_running;
                        CClearMessages] ++ l' ++ tail)%list).
  { subst calls. apply calls_since_app. rewrite LL, L', EL.
    by rewrite <- !app_assoc. }
  rewrite C. unfold launch_dirs, asked_files in *.
  rewrite !omap_app, TD, TA, !app_nil_r. simpl. auto.
Qed.

Lemma both_targets_run_in_proj :
  let H := Demo.host 4000 true (Some "/proj") "no-trans" true
                     Demo.scripts_quiet in
  Forall (eq (Some "/proj"))
    (launch_dirs (calls_since Demo.busy (fst (run H Demo.busy)))).
Proof.
  intros H.
  exact (proj1 (processes_run_beside_manifest H Demo.busy "/proj" eq_refl)).
Defined.

(** ** The flag and the store *)

Section Agreement.

Context {CommandInfo JsonObj : Type}.
Variable H : @Host CommandInfo JsonObj.
Variable name : string.

(** Adding a message never makes [has_message_for_path] forget the
    file. *)
Hypothesis has_message_grows :
  forall st m,
    has_message_for_path H st (Some name) = true ->
    has_message_for_path H (st ++ [m]) (Some name) = true.

Lemma flag_agrees_json (s : @State JsonObj) obj :
  flag_agrees H name s -> flag_agrees H name (fst (on_json H obj s)).
Proof.
  intros [F A]. unfold on_json, seq, add_rust_messages, update, if_.
  cbn [fst snd store triggered_file_name emit set_store].
  rewrite F.
  set (st := (store s ++ _)%list).
  destruct (has_message_for_path H st (Some name)) eqn:E;
    cbn [fst snd]; (split; [exact F | ]); simpl; fold st; rewrite E;
    [reflexivity | ].
  rewrite A.
  destruct (has_message_for_path H (store s) (Some name)) eqn:E0; [ | done].
  subst st. by rewrite (has_message_grows _ _ E0) in E.
Qed.

Lemma flag_agrees_get_rustc_messages (s : @State JsonObj) :
  flag_agrees H name s -> flag_agrees H name (fst (get_rustc_messages H s)).
Proof.
  apply (steps_get_rustc_messages H
           (fun s s' => flag_agrees H name s -> flag_agrees H name s'));
    auto.
  intros s0 obj. apply flag_agrees_json.
Qed.

Lemma flag_agrees_check_target method ci t (s : @State JsonObj) :
  flag_agrees H name s ->
  flag_agrees H name (fst (check_target H method ci t s)).
Proof.
  apply (steps_check_target H
           (fun s s' => flag_agrees H name s -> flag_agrees H name s'));
    auto.
  intros s0 obj. apply flag_agrees_json.
Qed.

End Agreement.

(** X12: when the store of [messages] answers "no" while it is empty
    and never takes a "yes" back when a message is added, the found
    flag is always what [has_message_for_path] answers for the saved
    file: this holds when [get_rustc_messages] is entered, it is kept
    by every iteration of the loop, and it holds when the checker and
    the run are left. *)
Theorem flag_is_the_answer_of_the_store {CommandInfo JsonObj : Type}
    (H : @Host CommandInfo JsonObj) (s : @State JsonObj) (dir : string) :
  let name := abspath H (file_name H) in
  find_cargo_manifest H name = Some dir ->
  has_message_for_path H [] (Some name) = false ->
  (forall st m,
     has_message_for_path H st (Some name) = true ->
     has_message_for_path H (st ++ [m]) (Some name) = true) ->
  flag_agrees H name (entered H s) /\
  (forall method ci t s1,
     flag_agrees H name s1 ->
     flag_agrees H name (fst (check_target H method ci t s1))) /\
  flag_agrees H name (fst (get_rustc_messages H (entered H s))) /\
  flag_agrees H name (fst (run H s)).
Proof.
  intros name Hdir Hempty Hgrows.
  destruct (entered_spec H s) as (_ & ES & EF & _ & EB).
  assert (E : flag_agrees H name (entered H s)).
  { split; [exact EF | ]. by rewrite EB, ES, Hempty. }
  assert (G : flag_agrees H name (fst (get_rustc_messages H (entered H s))))
    by (by apply flag_agrees_get_rustc_messages).
  split; [exact E | split; [ | split; [exact G | ]]].
  - intros method ci t s1. by apply flag_agrees_check_target.
  - destruct (run_found_trace H s dir Hdir) as (l & _ & _ & _ & _ & R).
    rewrite R. destruct G as [GF GA].
    set (s2 := fst (get_rustc_messages H (entered H s))) in *.
    clearbody s2.
    destruct (snd (get_rustc_messages H (entered H s))) as [| | |[]];
      split; assumption.
Qed.

Lemma flag_after_a_hit :
  let H := Demo.host 4000 true (Some "/proj") "check" true Demo.scripts_hit in
  flag_agrees H "/proj/src/util.rs" (fst (run H Demo.busy)).
Proof.
  intros H.
  refine (proj2 (proj2 (proj2
            (flag_is_the_answer_of_the_store H Demo.busy "/proj"
               eq_refl eq_refl _)))).
  intros st m E. simpl in E |- *.
  rewrite existsb_app, E. reflexivity.
Defined.

(** ** The save event on a recent host *)

(** X13: on a host of build 3118 or later the save handler does one of
    three things and never raises: it starts a thread exactly when
    checking is switched on and the view is a Rust view; it clears the
    messages exactly when checking is switched off, whatever the view;
    and it does nothing at all for another view while checking is
    on. *)
Theorem save_starts_or_clears {CommandInfo JsonObj : Type}
    (H : @Host CommandInfo JsonObj) (s : @State JsonObj) :
  3118 <= sublime_version H ->
  let out := on_post_save H s in
  let calls := calls_since s (fst out) in
  snd out = Normal /\
  log (fst out) = (log s ++ calls)%list /\
  (calls = [CThreadStart] <->
   rust_syntax_checking H = true /\ active_view_is_rust H = true) /\
  (calls = [CClearMessages] <-> rust_syntax_checking H = false) /\
  (calls = [] <->
   rust_syntax_checking H = true /\ active_view_is_rust H = false) /\
  (rust_syntax_checking H = true -> store (fst out) = store s) /\
  (rust_syntax_checking H = false -> store (fst out) = []) /\
  view_status (fst out) = view_status s.
Proof.
  intros Hv out calls. subst calls out.
  unfold on_post_save, seq, if_. apply Z.ltb_ge in Hv. rewrite Hv.
  unfold pass. cbv beta iota.
  destruct (rust_syntax_checking H), (active_view_is_rust H);
    cbn [andb negb clear_messages update fst snd];
    match goal with
    | |- context [calls_since s ?s1] =>
        match s1 with
        | s => rewrite calls_since_refl
        | emit ?c _ => rewrite (calls_since_app s s1 [c] eq_refl)
        end
    end;
    cbn [log store view_status emit set_store];
    rewrite ?app_nil_r;
    repeat split; intros; try done; intuition discriminate.
Qed.

Lemma saving_a_text_file :
  let H := Corner.not_rust
             (Demo.host 4000 true (Some "/proj") "check" true
                        Demo.scripts_quiet) in
  on_post_save H Demo.busy = (Demo.busy, Normal) /\
  calls_since Demo.busy (fst (on_post_save H Demo.busy)) = [].
Proof.
  intros H.
  destruct (save_starts_or_clears H Demo.busy ltac:(simpl; lia))
    as (_ & _ & _ & _ & E & _).
  split; [reflexivity | ]. by apply E.
Defined.

(** ** Every launch of a run *)

Section Launches.

Context {CommandInfo JsonObj : Type}.
Variable H : @Host CommandInfo JsonObj.

(** The loop launches the first targets of the list, each with the
    command asked for it. *)
Lemma for_each_invocations method ci ts (s : @State JsonObj) :
  exists n,
    proc_runs (calls_since s
                 (fst (for_each ts (check_target H method ci) s))) =
    map (invocation H method ci (cwd s)) (take n ts).
Proof.
  revert s. induction ts as [|t ts IH]; intros s.
  - exists O. simpl. by rewrite calls_since_refl.
  - rewrite for_each_check_target.
    pose proof (check_target_launch H method ci t s) as One.
    cbv zeta in One.
    destruct (check_target_spec H method ci t s) as [(l & L & _) _].
    destruct (check_target_checks H method ci t s) as [_ C _ _ _].
    destruct (check_target H method ci t s) as [s1 c]. simpl in One, L, C.
    destruct c as [| | |e]; try (exists 1%nat; exact One).
    destruct (IH s1) as [n E]. exists (S n).
    pose proof (for_each_log H method ci ts s1) as L2. cbv zeta in L2.
    rewrite L in L2. rewrite <- app_assoc in L2.
    rewrite (calls_since_app _ _ _ L2), proc_runs_app.
    rewrite (calls_since_app _ _ _ L) in One.
    rewrite One, E, C. reflexivity.
Qed.

(** The callbacks for the events which are not heard do nothing. *)
Lemma for_each_deliver_heard evs (s : @State JsonObj) :
  for_each evs (deliver H) s = for_each (List.filter heard evs) (deliver H) s.
Proof.
  revert s. induction evs as [|ev evs IH]; intros s; [done | ].
  cbn [List.filter]. destruct (heard ev) eqn:Hh; cbn [for_each].
  - destruct (deliver H ev s) as [s1 []]; auto.
  - replace (deliver H ev s) with (s, Normal) by (by destruct ev).
    apply IH.
Qed.

End Launches.

(** X14: with a method other than clippy, the processes of a run are
    launched for the first targets of the detector's list, in its
    order, each with the command asked for that target alone and
    changed for the method: what was appended for one target is not
    carried over to the next. *)
Theorem each_target_has_its_own_command {CommandInfo JsonObj : Type}
    (H : @Host CommandInfo JsonObj) (s : @State JsonObj) (dir : string)
    (ci : CommandInfo) :
  let name := abspath H (file_name H) in
  let method := rust_syntax_checking_method H in
  find_cargo_manifest H name = Some dir ->
  String.eqb method "clippy" = false ->
  CARGO_COMMANDS H method = Some ci ->
  exists n,
    proc_runs (calls_since s (fst (run H s))) =
    map (invocation H method ci (Some dir))
        (take n (determine_targets H (Some name))).
Proof.
  intros name method Hdir Hm Hci.
  destruct (run_found_trace H s dir Hdir) as (l & _ & _ & _ & _ & R).
  destruct (entered_spec H s) as (EL & _ & EF & EC & _).
  pose proof (get_rustc_messages_targets H ci (entered H s) Hm Hci) as G.
  rewrite EF in G. fold name method in G.
  set (s1 := emit (CDetermineTargets (Some name))
               (emit CSettingsLoad (entered H s))) in G.
  destruct (for_each_invocations H method ci
              (determine_targets H (Some name)) s1) as [n E].
  change (cwd s1) with (cwd (entered H s)) in E.
  rewrite EC in E. fold name in E. rewrite Hdir in E.
  pose proof (for_each_log H method ci (determine_targets H (Some name)) s1)
    as L. cbv zeta in L.
  rewrite <- G in E, L.
  set (c := match snd (get_rustc_messages H (entered H s)) with
            | Return => Normal
            | c => c
            end) in R.
  destruct (leave_spec (fst (get_rustc_messages H (entered H s))) c)
    as (LL & _).
  cbv zeta in LL. rewrite <- R in LL.
  set (tail := match c with
               | Normal => [CMessagesFinished; CEraseStatus status_key]
               | _ => [CEraseStatus status_key]
               end : list (@Call JsonObj)) in LL.
  assert (T : proc_runs tail = []) by (subst tail; by destruct c).
  exists n.
  rewrite (calls_since_app s (fst (run H s))
             ([CSetStatus status_key status_running; CClearMessages;
               CSettingsLoad; CDetermineTargets (Some name)] ++
              calls_since s1 (fst (get_rustc_messages H (entered H s))) ++
              tail)%list).
  - rewrite !proc_runs_app, T, app_nil_r. exact E.
  - rewrite LL, L.
    change (log s1)
      with ((log (entered H s) ++ [CSettingsLoad]) ++
            [CDetermineTargets (Some name)])%list.
    rewrite EL. by rewrite <- !app_assoc.
Qed.

Lemma two_targets_two_commands :
  let H := Demo.host 4000 true (Some "/proj") "no-trans" true
                     Demo.scripts_quiet in
  exists n,
    proc_runs (calls_since Demo.busy (fst (run H Demo.busy))) =
    map (invocation H "no-trans" "rustc" (Some "/proj"))
        (take n [("src/main.rs", ["--bin"; "app"]); ("src/lib.rs", ["--lib"])]).
Proof.
  intros H.
  exact (each_target_has_its_own_command H Demo.busy "/proj" "rustc"
           eq_refl eq_refl eq_refl).
Defined.

(** X15: the callbacks [on_begin], [on_data], [on_finished] and
    [on_terminated] do nothing: the thread is left by the events of a
    process exactly as by its JSON objects and error lines alone, so
    neither raw output nor the exit code of the process has any
    effect. *)
Theorem only_json_and_errors_are_heard {CommandInfo JsonObj : Type}
    (H : @Host CommandInfo JsonObj) (evs : list (@ProcEvent JsonObj))
    (s : @State JsonObj) :
  for_each evs (deliver H) s =
    for_each (List.filter heard evs) (deliver H) s /\
  (forallb (fun ev => negb (heard ev)) evs = true ->
   for_each evs (deliver H) s = (s, Normal)).
Proof.
  split; [apply for_each_deliver_heard | ].
  intros Hq. rewrite for_each_deliver_heard.
  assert (E : List.filter heard evs = []).
  { induction evs as [|ev evs IH]; [done | ]. simpl in Hq |- *.
    apply andb_prop in Hq as [Hev Hq].
    destruct (heard ev); [discriminate | auto]. }
  by rewrite E.
Qed.

Lemma failed_build_without_output :
  let H := Demo.host 4000 true (Some "/proj") "check" true
                     Demo.scripts_quiet in
  for_each [EvBegin; EvData "Compiling app"; EvFinished 101] (deliver H)
    Demo.busy = (Demo.busy, Normal).
Proof.
  intros H.
  apply (only_json_and_errors_are_heard H
           [EvBegin; EvData "Compiling app"; EvFinished 101] Demo.busy).
  reflexivity.
Defined.

(** ** Clippy's messages *)

(** X16: with the method "clippy" the thread does not name a target:
    when the one process starts, every JSON object it emits is added,
    in order, with the base path of the command and with whatever
    target the thread held before, which is none on a new thread. *)
Theorem clippy_messages_name_no_target {CommandInfo JsonObj : Type}
    (H : @Host CommandInfo JsonObj) (s : @State JsonObj) (ci : CommandInfo) :
  rust_syntax_checking_method H = "clippy" ->
  CARGO_COMMANDS H "clippy" = Some ci ->
  let cmd := get_command H "clippy" ci (cwd s) (cwd s) None true in
  let p := proc_script H (length (proc_runs (log s))) (command cmd) (cwd s)
                       (env cmd) in
  let out := fst (get_rustc_messages H s) in
  spawn p = None ->
  store out =
    (store s ++
     map (fun obj => mkMessage (Some (msg_rel_path cmd)) obj
                               (current_target_src s))
         (json_objs (events p)))%list /\
  current_target_src out = current_target_src s.
Proof.
  intros Hm Hci cmd p out Hs. subst out.
  rewrite (get_rustc_messages_clippy H ci s Hm Hci). cbv zeta. fold cmd.
  set (s1 := set_msg_rel_path _ _).
  rewrite run_and_wait_eq. cbv zeta.
  assert (Hp : proc_script H (length (proc_runs (log s1))) (command cmd)
                 (cwd s1) (env cmd) = p).
  { subst s1 p. simpl. by rewrite !proc_runs_app, !app_nil_r. }
  rewrite Hp, Hs.
  set (s2 := emit CProcWait _).
  destruct (for_each_deliver_trace H (events p) s2)
    as (_ & T & _ & C & _).
  cbv zeta in T, C.
  change (cur_msg_rel_path s2) with (Some (msg_rel_path cmd)) in T.
  change (current_target_src s2) with (current_target_src s) in T, C.
  change (store s2) with (store s) in T.
  rewrite added_callback_calls in T.
  set (s3 := fst (for_each (events p) (deliver H) s2)) in *. clearbody s3.
  by destruct (exit p).
Qed.

Lemma clippy_on_a_new_thread :
  let H := Demo.host 4000 true (Some "/proj") "clippy" true
                     Demo.scripts_hit in
  store (fst (get_rustc_messages H Demo.idle)) =
  [mkMessage (Some "/proj") "other" None; mkMessage (Some "/proj") "hit" None].
Proof.
  intros H.
  exact (proj1 (clippy_messages_name_no_target H Demo.idle "clippy"
                  eq_refl eq_refl eq_refl)).
Defined.

(** ** When the saved file is reported *)

Section Hits.

Context {CommandInfo JsonObj : Type}.
Variable H : @Host CommandInfo JsonObj.

Lemma reported_app file (st a b : list (@Message JsonObj)) :
  reported H file st (a ++ b) =
  reported H file st a || reported H file (st ++ a) b.
Proof.
  revert st. induction a as [|m a IH]; intros st; simpl.
  - by rewrite app_nil_r.
  - rewrite IH, <- app_assoc, orb_assoc. reflexivity.
Qed.

(** [on_json] for one object, as one equation. *)
Lemma deliver_json obj (s : @State JsonObj) :
  let m := mkMessage (cur_msg_rel_path s) obj (current_target_src s) in
  let s1 := emit (CAddRustMessages m) (set_store (store s ++ [m]) s) in
  deliver H (EvJson obj) s =
  (if has_message_for_path H (store s ++ [m]) (triggered_file_name s)
   then set_this_view_found true s1 else s1, Normal).
Proof.
  intros m s1.
  unfold deliver, call, on_json, seq, add_rust_messages, update, if_.
  cbn [fst snd store triggered_file_name emit set_store].
  fold m. by destruct (has_message_for_path H _ _).
Qed.

(** The flag after the callbacks of a process: it was up before, or
    [has_message_for_path] said yes after one of the messages. *)
Lemma for_each_deliver_flag evs (s : @State JsonObj) :
  this_view_found (fst (for_each evs (deliver H) s)) =
  this_view_found s ||
  reported H (triggered_file_name s) (store s)
    (map (fun obj => mkMessage (cur_msg_rel_path s) obj
                               (current_target_src s))
         (json_objs evs)).
Proof.
  revert s. induction evs as [|ev evs IH]; intros s.
  - simpl. by rewrite orb_false_r.
  - cbn [for_each].
    destruct ev;
      try (change (deliver H _ s) with (s, Normal);
           cbv beta iota; rewrite IH; reflexivity).
    + change (deliver H (EvError message) s)
        with (emit (CPrint ("Rust Error: " ++ message)) s, Normal).
      cbv beta iota. rewrite IH. reflexivity.
    + rewrite deliver_json. cbv zeta.
      set (m := mkMessage (cur_msg_rel_path s) obj (current_target_src s)).
      change (json_objs (EvJson obj :: evs)) with (obj :: json_objs evs).
      cbn [map reported]. fold m.
      destruct (has_message_for_path H (store s ++ [m])
                  (triggered_file_name s)) eqn:E;
        cbv beta iota; rewrite IH;
        cbn [this_view_found store triggered_file_name cur_msg_rel_path
             current_target_src emit set_store set_this_view_found];
        by destruct (this_view_found s).
Qed.

Lemma callback_calls_wait rel src (evs : list (@ProcEvent JsonObj)) :
  forallb wait_call (callback_calls rel src evs) = true.
Proof.
  induction evs as [|ev evs IH]; [done | ]. destruct ev; simpl; auto.
Qed.

(** What one iteration leaves when its process starts and ends. *)
Lemma check_target_outcome method ci t (s : @State JsonObj) :
  let k := length (proc_runs (log s)) in
  let p := target_script H method ci (cwd s) k t in
  let ms := target_messages H method ci (cwd s) k t in
  let out := check_target H method ci t s in
  spawn p = None ->
  this_view_found (fst out) =
    this_view_found s || reported H (triggered_file_name s) (store s) ms /\
  store (fst out) = (store s ++ ms)%list /\
  length (proc_runs (log (fst out))) = S k /\
  cwd (fst out) = cwd s /\
  triggered_file_name (fst out) = triggered_file_name s /\
  log (fst out) = (log s ++ calls_since s (fst out))%list /\
  launched (calls_since s (fst out)) = [Some (fst t)] /\
  (exit p = None ->
   snd out = if this_view_found (fst out) then Break else Normal).
Proof.
  intros k p ms out Hs.
  destruct (check_target_trace H method ci t s) as (L & T & _ & _ & C).
  destruct (check_target_checks H method ci t s) as [F W _ _ _].
  fold out in L, T, C, F, W.
  change (proc_script H (length (proc_runs (log s))) _ (cwd s) _)
    with p in L, T, C.
  rewrite Hs in L, T, C.
  pose proof (calls_since_app _ _ _ L) as E.
  assert (Hflag : this_view_found (fst out) =
                  this_view_found s ||
                  reported H (triggered_file_name s) (store s) ms).
  { subst out. rewrite check_target_eq. cbv zeta.
    set (s1 := set_current_target_src _ _).
    rewrite run_and_wait_eq. cbv zeta.
    assert (Hp : proc_script H (length (proc_runs (log s1)))
                   (augment H method (snd t)
                      (get_command H method ci (cwd s) (cwd s)
                         (Some (join " " (snd t))) true))
                   (cwd s1)
                   (env (get_command H method ci (cwd s) (cwd s)
                           (Some (join " " (snd t))) true)) = p).
    { subst s1 p k. simpl. by rewrite proc_runs_app, app_nil_r. }
    rewrite Hp, Hs.
    set (s2 := emit CProcWait _).
    pose proof (for_each_deliver_flag (events p) s2) as D.
    set (s3 := fst (for_each (events p) (deliver H) s2)) in *.
    clearbody s3.
    assert (G : this_view_found s3 =
                this_view_found s ||
                reported H (triggered_file_name s) (store s) ms)
      by exact D.
    by destruct (exit p); [ | destruct (this_view_found s3) eqn:B];
      cbn [fst]; rewrite ?B. }
  repeat split; auto.
  - rewrite T. change (added (CProcWait :: ?l)) with (added l).
    by rewrite added_callback_calls.
  - rewrite L, proc_runs_app. cbn [proc_runs List.filter is_proc_run].
    rewrite (filter_none wait_call is_proc_run).
    + rewrite length_app. simpl. subst k. lia.
    + by intros [].
    + apply callback_calls_wait.
  - by rewrite E.
  - rewrite E. simpl. f_equal. apply launched_wait, callback_calls_wait.
  - intros He. by rewrite He in C.
Qed.

End Hits.

(** ** The loop, from what the processes report *)

Section Loop.

Context {CommandInfo JsonObj : Type}.
Variable H : @Host CommandInfo JsonObj.

(** No message of the targets makes [has_message_for_path] say yes:
    every target is launched, and the flag stays down. *)
Lemma loop_all_miss method ci ts :
  forall (s : @State JsonObj) k,
    k = length (proc_runs (log s)) ->
    this_view_found s = false ->
    all_end H method ci (cwd s) k ts ->
    reported H (triggered_file_name s) (store s)
      (targets_messages H method ci (cwd s) k ts) = false ->
    let out := for_each ts (check_target H method ci) s in
    snd out = Normal /\
    this_view_found (fst out) = false /\
    launched (calls_since s (fst out)) = map (fun t => Some (fst t)) ts.
Proof.
  induction ts as [|t ts IH]; intros s k Hk Hf Hend Hrep out.
  - subst out. simpl. by rewrite calls_since_refl.
  - subst out. rewrite for_each_check_target.
    cbn [all_end targets_messages] in Hend, Hrep.
    destruct Hend as (Hs & He & Hend).
    rewrite reported_app in Hrep. apply orb_false_elim in Hrep as [R1 R2].
    subst k.
    destruct (check_target_outcome H method ci t s Hs)
      as (F & T & K & W & N & L & One & C).
    rewrite Hf, R1 in F. cbn [orb] in F. specialize (C He). rewrite F in C.
    destruct (check_target H method ci t s) as [s1 c].
    cbn [fst snd] in F, T, K, W, N, L, One, C. subst c.
    rewrite <- T, <- N, <- W in R2. rewrite <- W in Hend.
    destruct (IH s1 _ (eq_sym K) F Hend R2) as (C2 & F2 & L2).
    split; [exact C2 | split; [exact F2 | ]].
    pose proof (for_each_log H method ci ts s1) as L3. cbv zeta in L3.
    rewrite L, <- app_assoc in L3.
    rewrite (calls_since_app _ _ _ L3), launched_app, One.
    cbn [app map]. f_equal. exact L2.
Qed.

(** The targets [pre] report nothing for the file and the next target
    does: the loop ends with it. *)
Lemma loop_hits_at method ci pre a rest :
  forall (s : @State JsonObj) k,
    k = length (proc_runs (log s)) ->
    this_view_found s = false ->
    all_end H method ci (cwd s) k (pre ++ [a]) ->
    reported H (triggered_file_name s) (store s)
      (targets_messages H method ci (cwd s) k pre) = false ->
    reported H (triggered_file_name s)
      (store s ++ targets_messages H method ci (cwd s) k pre)
      (target_messages H method ci (cwd s) (k + length pre) a) = true ->
    let out := for_each (pre ++ a :: rest) (check_target H method ci) s in
    snd out = Normal /\
    this_view_found (fst out) = true /\
    launched (calls_since s (fst out)) =
      map (fun t => Some (fst t)) (pre ++ [a]).
Proof.
  induction pre as [|t pre IH]; intros s k Hk Hf Hend Hmiss Hhit out.
  - subst out. cbn [app] in *. rewrite for_each_check_target.
    cbn [all_end targets_messages length] in Hend, Hhit.
    destruct Hend as (Hs & He & _).
    rewrite app_nil_r, Nat.add_0_r in Hhit. subst k.
    destruct (check_target_outcome H method ci a s Hs)
      as (F & _ & _ & _ & _ & _ & One & C).
    rewrite Hhit, orb_true_r in F. specialize (C He). rewrite F in C.
    destruct (check_target H method ci a s) as [s1 c].
    cbn [fst snd] in F, One, C. subst c. by cbn [fst snd map].
  - subst out. cbn [app] in *. rewrite for_each_check_target.
    cbn [all_end targets_messages length] in Hend, Hmiss, Hhit.
    destruct Hend as (Hs & He & Hend).
    rewrite reported_app in Hmiss.
    apply orb_false_elim in Hmiss as [R1 R2].
    subst k.
    destruct (check_target_outcome H method ci t s Hs)
      as (F & T & K & W & N & L & One & C).
    rewrite Hf, R1 in F. cbn [orb] in F. specialize (C He). rewrite F in C.
    destruct (check_target H method ci t s) as [s1 c].
    cbn [fst snd] in F, T, K, W, N, L, One, C. subst c.
    rewrite app_assoc, <- T, <- N, <- W in Hhit.
    rewrite <- Nat.add_succ_comm in Hhit.
    rewrite <- T, <- N, <- W in R2. rewrite <- W in Hend.
    destruct (IH s1 _ (eq_sym K) F Hend R2 Hhit) as (C2 & F2 & L2).
    split; [exact C2 | split; [exact F2 | ]].
    pose proof (for_each_log H method ci (pre ++ a :: rest) s1) as L3.
    cbv zeta in L3. rewrite L, <- app_assoc in L3.
    rewrite (calls_since_app _ _ _ L3), launched_app, One.
    cbn [app map]. f_equal. exact L2.
Qed.

(** The loop inside a run which found its manifest. *)
Lemma run_around_loop ci (s : @State JsonObj) dir :
  let name := abspath H (file_name H) in
  let method := rust_syntax_checking_method H in
  find_cargo_manifest H name = Some dir ->
  String.eqb method "clippy" = false ->
  CARGO_COMMANDS H method = Some ci ->
  let s1 := emit (CDetermineTargets (Some name))
              (emit CSettingsLoad (entered H s)) in
  let loop := for_each (determine_targets H (Some name))
                (check_target H method ci) s1 in
  launched (calls_since s (fst (run H s))) =
    launched (calls_since s1 (fst loop)) /\
  (snd loop = Normal -> snd (run H s) = Normal) /\
  this_view_found s1 = false /\
  store s1 = [] /\
  cwd s1 = Some dir /\
  triggered_file_name s1 = Some name /\
  length (proc_runs (log s1)) = length (proc_runs (log s)).
Proof.
  intros name method Hdir Hm Hci s1 loop.
  destruct (run_found_trace H s dir Hdir) as (l & _ & _ & _ & _ & R).
  destruct (entered_spec H s) as (EL & ES & EF & EC & EB).
  pose proof (get_rustc_messages_targets H ci (entered H s) Hm Hci) as G.
  rewrite EF in G. fold name method in G. fold s1 in G. fold loop in G.
  pose proof (for_each_log H method ci (determine_targets H (Some name)) s1)
    as L. cbv zeta in L. fold loop in L.
  rewrite G in R.
  set (c := match snd loop with
            | Return => Normal
            | c => c
            end) in R.
  destruct (leave_spec (fst loop) c) as (LL & _ & _ & LC).
  cbv zeta in LL, LC. rewrite <- R in LL, LC.
  set (tail := match c with
               | Normal => [CMessagesFinished; CEraseStatus status_key]
               | _ => [CEraseStatus status_key]
               end : list (@Call JsonObj)) in LL.
  assert (T : launched tail = []) by (subst tail; by destruct c).
  assert (L1 : log s1 =
               (log s ++ [CSetStatus status_key status_running;
                          CClearMessages; CSettingsLoad;
                          CDetermineTargets (Some name)])%list).
  { change (log s1)
      with ((log (entered H s) ++ [CSettingsLoad]) ++
            [CDetermineTargets (Some name)])%list.
    rewrite EL. by rewrite <- !app_assoc. }
  split; [ | split; [ | split; [exact EB | split; [exact ES | split;
    [ | split; [exact EF | ]]]]]].
  - rewrite (calls_since_app s (fst (run H s))
               ([CSetStatus status_key status_running; CClearMessages;
                 CSettingsLoad; CDetermineTargets (Some name)] ++
                calls_since s1 (fst loop) ++ tail)%list).
    + rewrite !launched_app, T, app_nil_r. reflexivity.
    + rewrite LL, L, L1. by rewrite <- !app_assoc.
  - intros N. rewrite LC. subst c. by rewrite N.
  - change (cwd s1) with (cwd (entered H s)). by rewrite EC.
  - rewrite L1, proc_runs_app, app_nil_r. reflexivity.
Qed.

End Loop.

(** ** The loop over the targets *)

(** C1: with the methods "check" and "no-trans", [get_rustc_messages]
    is the loop over the targets of the saved file.  Once the process
    of a target has been waited for, the process of the next target is
    launched exactly when the found flag is down; so when the flag is
    up after a target the loop ends there, with that target the only
    one launched, and when the loop ends normally with the flag still
    down every target has been launched once, in the order of the
    detector.  The flag after a target is up exactly when it was up
    before or [has_message_for_path] said yes for the saved file after
    one of the target's messages was added.  Hence, in a run: when the
    messages of the first targets are not reported for the saved file
    and a message of the next target is, that target is the last one
    launched; and when no message of any target is reported for the
    saved file, every target is launched once, in the order of the
    detector. *)
Theorem targets_checked_until_found {CommandInfo JsonObj : Type}
    (H : @Host CommandInfo JsonObj) (ci : CommandInfo) :
  rust_syntax_checking_method H = "check" \/
  rust_syntax_checking_method H = "no-trans" ->
  CARGO_COMMANDS H (rust_syntax_checking_method H) = Some ci ->
  let name := abspath H (file_name H) in
  let method := rust_syntax_checking_method H in
  let body := check_target H (rust_syntax_checking_method H) ci in
  (forall s,
     get_rustc_messages H s =
     for_each (determine_targets H (triggered_file_name s)) body
       (emit (CDetermineTargets (triggered_file_name s))
          (emit CSettingsLoad s))) /\
  (forall t t2 rest s,
     let one := body t s in
     let all := for_each (t :: t2 :: rest) body s in
     (forall e, snd one <> Raise e) ->
     (this_view_found (fst one) = false <->
      exists more,
        launched (calls_since (fst one) (fst all)) = Some (fst t2) :: more)) /\
  (forall t rest s,
     let one := body t s in
     (forall e, snd one <> Raise e) ->
     this_view_found (fst one) = true ->
     for_each (t :: rest) body s = (fst one, Normal) /\
     launched (calls_since s (fst one)) = [Some (fst t)]) /\
  (forall ts s,
     let all := for_each ts body s in
     snd all = Normal ->
     this_view_found (fst all) = false ->
     launched (calls_since s (fst all)) = map (fun t => Some (fst t)) ts) /\
  (forall ts s,
     exists n,
       launched (calls_since s (fst (for_each ts body s))) =
       map (fun t => Some (fst t)) (take n ts)) /\
  (forall t s,
     let k := length (proc_runs (log s)) in
     spawn (target_script H method ci (cwd s) k t) = None ->
     this_view_found (fst (body t s)) =
     this_view_found s ||
     reported H (triggered_file_name s) (store s)
       (target_messages H method ci (cwd s) k t)) /\
  (forall s dir pre a rest,
     let k := length (proc_runs (log s)) in
     find_cargo_manifest H name = Some dir ->
     determine_targets H (Some name) = (pre ++ a :: rest)%list ->
     all_end H method ci (Some dir) k (pre ++ [a]) ->
     reported H (Some name) []
       (targets_messages H method ci (Some dir) k pre) = false ->
     reported H (Some name)
       (targets_messages H method ci (Some dir) k pre)
       (target_messages H method ci (Some dir) (k + length pre) a) = true ->
     launched (calls_since s (fst (run H s))) =
       map (fun t => Some (fst t)) (pre ++ [a]) /\
     snd (run H s) = Normal) /\
  (forall s dir,
     let k := length (proc_runs (log s)) in
     let ts := determine_targets H (Some name) in
     find_cargo_manifest H name = Some dir ->
     all_end H method ci (Some dir) k ts ->
     reported H (Some name) []
       (targets_messages H method ci (Some dir) k ts) = false ->
     launched (calls_since s (fst (run H s))) =
       map (fun t => Some (fst t)) ts /\
     snd (run H s) = Normal).
Proof.
  intros Hm Hci name method body.
  assert (Hne : String.eqb (rust_syntax_checking_method H) "clippy" = false)
    by (destruct Hm as [-> | ->]; reflexivity).
  split; [ | split; [ | split; [ | split; [ | split; [ | split;
    [ | split]]]]]].
  - intros s. by apply get_rustc_messages_targets.
  - intros t t2 rest s. apply next_target_iff.
  - intros t rest s. apply loop_stops_when_found.
  - intros ts s all Hn Hf. by apply for_each_all_launched.
  - intros ts s. apply for_each_launched_prefix.
  - intros t s k Hs.
    by destruct (check_target_outcome H method ci t s Hs) as (F & _).
  - intros s dir pre a rest k Hdir Hts Hend Hmiss Hhit.
    destruct (run_around_loop H ci s dir Hdir Hne Hci)
      as (L & N & F & S & W & T & K).
    fold name method in L, N, F, S, W, T, K. rewrite Hts in L, N.
    set (s1 := emit (CDetermineTargets (Some name))
                 (emit CSettingsLoad (entered H s))) in *.
    destruct (loop_hits_at H method ci pre a rest s1 k) as (C2 & _ & L2).
    + by rewrite K.
    + exact F.
    + by rewrite W.
    + by rewrite T, S, W.
    + by rewrite T, S, W.
    + split; [by rewrite L | by apply N].
  - intros s dir k ts Hdir Hend Hmiss.
    destruct (run_around_loop H ci s dir Hdir Hne Hci)
      as (L & N & F & S & W & T & K).
    fold name method in L, N, F, S, W, T, K. fold ts in L, N.
    set (s1 := emit (CDetermineTargets (Some name))
                 (emit CSettingsLoad (entered H s))) in *.
    destruct (loop_all_miss H method ci ts s1 k) as (C2 & _ & L2).
    + by rewrite K.
    + exact F.
    + by rewrite W.
    + by rewrite T, S, W.
    + split; [by rewrite L | by apply N].
Qed.

Lemma first_target_hits :
  let hit := Demo.host 4000 true (Some "/proj") "check" true
                       Demo.scripts_hit in
  let quiet := Demo.host 4000 true (Some "/proj") "check" true
                         Demo.scripts_quiet in
  launched (calls_since Demo.busy (fst (run hit Demo.busy))) =
    [Some "src/main.rs"] /\
  launched (calls_since Demo.busy (fst (run quiet Demo.busy))) =
    [Some "src/main.rs"; Some "src/lib.rs"].
Proof.
  intros hit quiet. split.
  - destruct (targets_checked_until_found hit "check"
                (or_introl eq_refl) eq_refl)
      as (_ & _ & _ & _ & _ & _ & E & _).
    refine (proj1 (E Demo.busy "/proj" [] ("src/main.rs", ["--bin"; "app"])
                     [("src/lib.rs", ["--lib"])] eq_refl eq_refl _
                     eq_refl eq_refl)).
    repeat split.
  - destruct (targets_checked_until_found quiet "check"
                (or_introl eq_refl) eq_refl)
      as (_ & _ & _ & _ & _ & _ & _ & M).
    refine (proj1 (M Demo.busy "/proj" eq_refl _ eq_refl)).
    repeat split.
Defined.

(** The two targets of the package share the saved file: the first
    reports it, the second is not launched, and the run completes. *)
Example shared_file_checked_once :
  let H := Demo.host 4000 true (Some "/proj") "check" true Demo.scripts_hit in
  launched (calls_since Demo.idle (fst (run H Demo.idle))) =
    [Some "src/main.rs"] /\
  List.filter Demo.is_hit (store (fst (run H Demo.idle))) =
    [mkMessage (Some "/proj") "hit" (Some "src/main.rs")] /\
  snd (run H Demo.idle) = Normal.
Proof. vm_compute. auto. Qed.

(** Neither target reports the saved file: both are launched, in the
    order of the detector. *)
Example both_targets_checked :
  let H := Demo.host 4000 true (Some "/proj") "no-trans" true
                     Demo.scripts_quiet in
  launched (calls_since Demo.idle (fst (run H Demo.idle))) =
    [Some "src/main.rs"; Some "src/lib.rs"] /\
  snd (run H Demo.idle) = Normal.
Proof. vm_compute. auto. Qed.
